(** * The publish-transform pipeline of the exposure-notifications server

    A shallow embedding of [internal/publish/model/exposure_model.go]:
    the request model ([Publish], [ExposureKey]), the attestation nonce
    ([AndroidNonce]), the interval clock ([IntervalNumber],
    [TruncateWindow]), the per-key transform ([TransformExposureKey]) and
    the batch validator ([TransformPublish]); and of the export-config
    tool, [tools/export-config/main.go].

    Go values are embedded as follows.
    - [int32], [int] and [int64] are [Z]; every arithmetic operation whose
      result can leave the type has its wrap-around written out.
    - A Go [string] is a byte string: Rocq's [string]; [[]byte] is
      [list byte].
    - A multi-value return [(v, err)] is a pair whose second component is
      an [option error]; a run-time panic is the outer [None].
    - The process environment read by [os.Getenv] is an explicit [gmap].
    - The functions of the Go standard library that the package calls are
      either written out ([strings.Join], [strconv.ParseBool],
      [sha256.Sum256], [base64.StdEncoding]) or, where their full
      behaviour is out of reach ([sort.Slice], [strings.ToUpper],
      [base64util.DecodeString]), taken as Section variables with the
      contract their documentation gives. *)

From Stdlib.Strings Require Import Byte.
From Stdlib Require Import ZArith String Ascii Lia DecimalString.
From stdpp Require Import base list gmap strings sorting.

Local Open Scope Z_scope.

(** ** Fixed-width integers *)

Module Int32.
Definition min_int : Z := -2147483648.
Definition max_int : Z := 2147483647.
Definition modulus : Z := 4294967296.

(** The value of a Go conversion [int32(x)]: the low 32 bits of [x],
    read as a two's-complement number. *)
Definition wrap (x : Z) : Z := (x + 2147483648) mod modulus - 2147483648.

Definition in_range (x : Z) : Prop := min_int <= x <= max_int.

(** [x + y] on two [int32] operands. *)
Definition add (x y : Z) : Z := wrap (x + y).

(** [x / y] on two [int32] operands, [y] not zero: Go's integer
    division truncates toward zero. *)
Definition div (x y : Z) : Z := wrap (Z.quot x y).
End Int32.

Module Int64.
Definition modulus : Z := 18446744073709551616.
Definition wrap (x : Z) : Z :=
  (x + 9223372036854775808) mod modulus - 9223372036854775808.
Definition mul (x y : Z) : Z := wrap (x * y).
End Int64.

(** ** Package [time]

    An instant is the number of nanoseconds since the Unix epoch, a
    [Duration] a number of nanoseconds.  The bounded range of [time.Time]
    is not modelled. *)

Module Time.
Definition Time : Type := Z.
Definition Duration : Type := Z.

Definition Nanosecond : Duration := 1.
Definition Second : Duration := 1000000000.
Definition Minute : Duration := 60 * Second.
Definition Hour : Duration := 60 * Minute.

(** Seconds between the zero [time.Time] (January 1 of year 1) and the
    Unix epoch. *)
Definition unixToInternal : Z := 62135596800.

(** [t.Unix()]: whole seconds since the epoch; the nanosecond part of a
    [time.Time] is never negative, so this is the floor. *)
Definition Unix (t : Time) : Z := t / Second.

(** [t.Add(d)]. *)
Definition Add (t : Time) (d : Duration) : Time := t + d.

(** [t.Truncate(d)]: [t] rounded down to a multiple of [d] since the
    zero time; [t] itself when [d <= 0]. *)
Definition Truncate (t : Time) (d : Duration) : Time :=
  if d <=? 0 then t else t - (t + unixToInternal * Second) mod d.

(** [int32(d.Seconds())]: [Seconds] is the floating-point number of
    seconds, the conversion drops its fraction (toward zero). *)
Definition Seconds_int32 (d : Duration) : Z := Int32.wrap (Z.quot d Second).
End Time.

(** ** Package [strings], [fmt] and [strconv] *)

Module Strings.
(** [strings.Join(elems, sep)]: the first element, then [sep] and the
    next element for each of the others. *)
Definition Join (elems : list string) (sep : string) : string :=
  match elems with
  | [] => EmptyString
  | e :: rest => fold_left (fun b s => (b ++ sep ++ s)%string) rest e
  end.
End Strings.

Module Fmt.
(** The verb [%v] on an integer: its decimal digits, with a leading
    minus sign when negative. *)
Definition int_v (n : Z) : string := NilZero.string_of_int (Z.to_int n).
End Fmt.

Module Strconv.
(** [strconv.ParseBool]: the value and whether parsing failed. *)
Definition ParseBool (str : string) : bool * bool :=
  if bool_decide (str ∈ ["1"; "t"; "T"; "true"; "TRUE"; "True"]%string)
  then (true, false)
  else if bool_decide (str ∈ ["0"; "f"; "F"; "false"; "FALSE"; "False"]%string)
  then (false, false)
  else (false, true).
End Strconv.

(** ** Package [os]: the process environment *)

Module Os.
(** [os.Getenv(key)]: the value of the variable, empty when unset. *)
Definition Getenv (environ : gmap string string) (key : string) : string :=
  default EmptyString (environ !! key).
End Os.

(** ** Package [crypto/sha256] (FIPS 180-4) *)

Module Sha256.
Definition w32 (x : Z) : Z := x mod 4294967296.
Definition add32 (x y : Z) : Z := w32 (x + y).
Definition rotr (n x : Z) : Z :=
  Z.lor (Z.shiftr x n) (w32 (Z.shiftl x (32 - n))).
Definition not32 (x : Z) : Z := 4294967295 - x.

Definition Ch (x y z : Z) : Z := Z.lxor (Z.land x y) (Z.land (not32 x) z).
Definition Maj (x y z : Z) : Z :=
  Z.lxor (Z.lxor (Z.land x y) (Z.land x z)) (Z.land y z).
Definition Sigma0 (x : Z) : Z :=
  Z.lxor (Z.lxor (rotr 2 x) (rotr 13 x)) (rotr 22 x).
Definition Sigma1 (x : Z) : Z :=
  Z.lxor (Z.lxor (rotr 6 x) (rotr 11 x)) (rotr 25 x).
Definition sigma0 (x : Z) : Z :=
  Z.lxor (Z.lxor (rotr 7 x) (rotr 18 x)) (Z.shiftr x 3).
Definition sigma1 (x : Z) : Z :=
  Z.lxor (Z.lxor (rotr 17 x) (rotr 19 x)) (Z.shiftr x 10).

(** The constants are derived as FIPS 180-4 defines them: the first 32
    bits of the fractional parts of the cube roots (for [K]) and of the
    square roots (for [H0]) of the first primes. *)
Definition is_prime (n : nat) : bool :=
  forallb (fun d => negb (n mod d =? 0)%nat) (seq 2 (n - 2)).

Definition primes (n : nat) : list Z :=
  map Z.of_nat (take n (filter (fun p => is_prime p = true) (seq 2 400))).

(** The integer cube root of [x], bit by bit from bit [bits - 1] down. *)
Fixpoint cube_root (bits : nat) (x r : Z) : Z :=
  match bits with
  | O => r
  | S bits' =>
      let r' := r + 2 ^ Z.of_nat bits' in
      if r' * r' * r' <=? x then cube_root bits' x r' else cube_root bits' x r
  end.

Definition K : list Z :=
  Eval vm_compute in
    map (fun p => w32 (cube_root 40 (p * 2 ^ 96) 0)) (primes 64).

Definition H0 : list Z :=
  Eval vm_compute in map (fun p => w32 (Z.sqrt (p * 2 ^ 64))) (primes 8).

(** Big-endian bytes of a word and back. *)
Definition be_bytes (n : nat) (x : Z) : list Z :=
  map (fun i => Z.land (Z.shiftr x (8 * Z.of_nat i)) 255) (rev (seq 0 n)).
Definition be_word (bs : list Z) : Z :=
  fold_left (fun acc b => Z.lor (Z.shiftl acc 8) b) bs 0.

(** The message, the bit 1, zeros up to 56 modulo 64, and the bit length
    on 8 bytes. *)
Definition pad (msg : list Z) : list Z :=
  let len := Z.of_nat (length msg) in
  let zeros := Z.to_nat ((55 - len) mod 64) in
  msg ++ [128] ++ replicate zeros 0 ++ be_bytes 8 (8 * len).

Fixpoint chunks (n : nat) (size : nat) (l : list Z) : list (list Z) :=
  match n with
  | O => []
  | S n' => take size l :: chunks n' size (drop size l)
  end.

(** The message schedule: 16 words of the block, then 48 derived ones. *)
Definition extend (w : list Z) (t : nat) : list Z :=
  let at_ i := nth (t - i) w 0 in
  w ++ [add32 (add32 (add32 (sigma1 (at_ 2%nat)) (at_ 7%nat))
                     (sigma0 (at_ 15%nat))) (at_ 16%nat)].
Definition schedule (block : list Z) : list Z :=
  fold_left extend (seq 16 48) (map be_word (chunks 16 4 block)).

Definition round (s : list Z) (kw : Z * Z) : list Z :=
  match s with
  | [a; b; c; d; e; f; g; h] =>
      let T1 := add32 (add32 (add32 (add32 h (Sigma1 e)) (Ch e f g)) kw.1) kw.2 in
      let T2 := add32 (Sigma0 a) (Maj a b c) in
      [add32 T1 T2; a; b; c; add32 d T1; e; f; g]
  | _ => s
  end.

Definition compress (h : list Z) (block : list Z) : list Z :=
  zip_with add32 h (fold_left round (zip K (schedule block)) h).

Definition digest (msg : list Z) : list Z :=
  let p := pad msg in
  let h := fold_left compress (chunks (length p / 64) 64 p) H0 in
  concat (map (be_bytes 4) h).

Definition Z_of_byte (b : byte) : Z := Z.of_N (Byte.to_N b).
Definition byte_of_Z (z : Z) : byte :=
  default x00 (Byte.of_N (Z.to_N z)).

(** [sha256.Sum256(data)]. *)
Definition Sum256 (data : list byte) : list byte :=
  map byte_of_Z (digest (map Z_of_byte data)).
End Sha256.

(** ** Package [encoding/base64], the standard padded encoding *)

Module Base64.
Definition alphabet : list ascii :=
  list_ascii_of_string
    "ABCDEFGHIJKLMNOPQRSTUVWXYZabcdefghijklmnopqrstuvwxyz0123456789+/".

Definition enc (v : Z) : ascii := nth (Z.to_nat v) alphabet "="%char.

Fixpoint encode (bs : list Z) : list ascii :=
  match bs with
  | [] => []
  | [b0] =>
      [enc (Z.shiftr b0 2); enc (Z.shiftl (Z.land b0 3) 4); "="; "="]%char
  | [b0; b1] =>
      [enc (Z.shiftr b0 2);
       enc (Z.lor (Z.shiftl (Z.land b0 3) 4) (Z.shiftr b1 4));
       enc (Z.shiftl (Z.land b1 15) 2); "="%char]
  | b0 :: b1 :: b2 :: rest =>
      enc (Z.shiftr b0 2)
      :: enc (Z.lor (Z.shiftl (Z.land b0 3) 4) (Z.shiftr b1 4))
      :: enc (Z.lor (Z.shiftl (Z.land b1 15) 2) (Z.shiftr b2 6))
      :: enc (Z.land b2 63)
      :: encode rest
  end.

(** [base64.StdEncoding.EncodeToString(src)]. *)
Definition EncodeToString (src : list byte) : string :=
  string_of_list_ascii (encode (map Sha256.Z_of_byte src)).

(** The value of an alphabet character, [None] outside the alphabet. *)
Definition dec (c : ascii) : option Z :=
  Z.of_nat <$> list_find (fun a => a = c) alphabet ≫= (fun p => Some p.1).

Fixpoint decode (cs : list ascii) : option (list Z) :=
  match cs with
  | [] => Some []
  | [c0; c1; p2; p3] =>
      v0 ← dec c0; v1 ← dec c1;
      if bool_decide (p2 = "="%char) then
        if bool_decide (p3 = "="%char ∧ Z.land v1 15 = 0)
        then Some [Z.lor (Z.shiftl v0 2) (Z.shiftr v1 4)] else None
      else
        v2 ← dec p2;
        if bool_decide (p3 = "="%char) then
          if bool_decide (Z.land v2 3 = 0)
          then Some [Z.lor (Z.shiftl v0 2) (Z.shiftr v1 4);
                     Z.lor (Z.shiftl (Z.land v1 15) 4) (Z.shiftr v2 2)]
          else None
        else
          v3 ← dec p3;
          Some [Z.lor (Z.shiftl v0 2) (Z.shiftr v1 4);
                Z.lor (Z.shiftl (Z.land v1 15) 4) (Z.shiftr v2 2);
                Z.lor (Z.shiftl (Z.land v2 3) 6) v3]
  | c0 :: c1 :: c2 :: c3 :: rest =>
      v0 ← dec c0; v1 ← dec c1; v2 ← dec c2; v3 ← dec c3;
      tl ← decode rest;
      Some (Z.lor (Z.shiftl v0 2) (Z.shiftr v1 4)
            :: Z.lor (Z.shiftl (Z.land v1 15) 4) (Z.shiftr v2 2)
            :: Z.lor (Z.shiftl (Z.land v2 3) 6) v3
            :: tl)
  | _ => None
  end.

(** [base64.StdEncoding.DecodeString(s)] on input without line breaks. *)
Definition DecodeString (s : string) : option (list byte) :=
  map Sha256.byte_of_Z <$> decode (list_ascii_of_string s).
End Base64.

(** Hexadecimal rendering, for the test vectors. *)

Definition hex_digit (v : Z) : ascii :=
  nth (Z.to_nat v) (list_ascii_of_string "0123456789abcdef") "?"%char.
Definition hex (bs : list byte) : string :=
  string_of_list_ascii
    (concat (map (fun b => let z := Sha256.Z_of_byte b in
                           [hex_digit (Z.shiftr z 4); hex_digit (Z.land z 15)]) bs)).

(** ** Package [sort]

    [sort.Slice(x, less)] reorders [x] in place.  Its documentation asks
    for a [less] that is a transitive ordering (if [less i j] and
    [less j k] hold, so does [less i k]; if both fail, so does
    [less i k]), promises a sorted slice, and no stability: "equal
    elements may be reversed from their original order".  Which of the
    elements that [less] does not separate comes first depends on the
    algorithm: insertion sort on short slices, quicksort or
    pattern-defeating quicksort on long ones, by Go release.  The model
    therefore has two layers: the contract [Sort.Correct], which every
    release meets, and the insertion sort that every release runs on a
    slice of at most six elements. *)

Module Sort.
Section Contract.
Context {A : Type}.

(** [less] is a strict weak ordering: asymmetric and negatively
    transitive. *)
Record StrictWeakOrder (less : A -> A -> bool) : Prop := {
  less_asym : forall x y, less x y = true -> less y x = false;
  less_negtrans : forall x y z,
    less x y = false -> less y z = false -> less x z = false
}.

(** No element is [less] than one that comes before it. *)
Definition sorted_by (less : A -> A -> bool) (l : list A) : Prop :=
  StronglySorted (fun x y => less y x = false) l.

(** [insertionSort_func]: each element in turn is swapped leftwards
    while it is [less] than its left neighbour.  [sift x before]
    takes the part to the left of [x], nearest element first. *)
Fixpoint sift (less : A -> A -> bool) (x : A) (before : list A) : list A :=
  match before with
  | [] => [x]
  | y :: before' =>
      if less x y then y :: sift less x before' else x :: before
  end.

Definition insertionSort (less : A -> A -> bool) (l : list A) : list A :=
  rev (fold_left (fun before x => sift less x before) l []).
End Contract.

(** The contract of a sorting routine. *)
Record Correct (sort : forall A : Type, (A -> A -> bool) -> list A -> list A)
  : Prop := {
  sort_perm : forall A (less : A -> A -> bool) (l : list A),
    sort A less l ≡ₚ l;
  sort_sorted : forall A (less : A -> A -> bool) (l : list A),
    StrictWeakOrder less -> sorted_by less (sort A less l)
}.
End Sort.

(** ** The data model of [exposure_model.go] *)

(** 21 days worth of keys is the maximum per publish request. *)
Definition maxKeysPerPublish : Z := 21.
(** The only valid length of an exposure key. *)
Definition KeyLength : nat := 16.
Definition MinTransmissionRisk : Z := 0.
Definition MaxTransmissionRisk : Z := 8.
Definition MinIntervalCount : Z := 1.
Definition MaxIntervalCount : Z := 144.
Definition intervalLength : Time.Duration := 10 * Time.Minute.

Module ExposureKey.
Record t : Type := {
  Key : string;
  IntervalNumber : Z;      (* int32 *)
  IntervalCount : Z;       (* int32 *)
  TransmissionRisk : Z     (* int *)
}.
(** The zero value, as [make] fills a fresh slice with. *)
Definition zero : t :=
  {| Key := EmptyString; IntervalNumber := 0; IntervalCount := 0;
     TransmissionRisk := 0 |}.
End ExposureKey.

Module Publish.
Record t : Type := {
  Keys : list ExposureKey.t;
  Regions : list string;
  AppPackageName : string;
  Platform : string;
  DeviceVerificationPayload : string;
  VerificationPayload : string;
  Padding : string
}.
End Publish.

Module Exposure.
Record t : Type := {
  ExposureKey : list byte;
  TransmissionRisk : Z;    (* int *)
  AppPackageName : string;
  Regions : list string;
  IntervalNumber : Z;      (* int32 *)
  IntervalCount : Z;       (* int32 *)
  CreatedAt : Time.Time;
  LocalProvenance : bool;
  FederationSyncID : Z     (* int64 *)
}.
End Exposure.

Record Transformer : Type := {
  maxExposureKeys : Z;                  (* int *)
  maxIntervalStartAge : Time.Duration;
  truncateWindow : Time.Duration
}.

(** The errors of the package.  The source builds each as a formatted
    message; a constructor stands for the format and carries the values
    that the message prints. *)
Inductive error : Type :=
  | InvalidKeyEncoding (msg : string)
      (* the error of base64util.DecodeString, returned as it is *)
  | InvalidKeyLength (len : nat)
      (* "invalid key length, %v, must be %v" *)
  | InvalidIntervalCount (ic : Z)
      (* "invalid interval count, %v, must be >= %v && <= %v" *)
  | IntervalTooOld (n minIntervalNumber : Z)
      (* "interval number %v is too old, must be >= %v" *)
  | IntervalInFuture (n maxIntervalNumber : Z)
      (* "interval number %v is in the future, must be < %v" *)
  | KeyStillValid (n ic maxIntervalNumber : Z)
      (* "interval number %v + interval count %v represents a key that is
         still valid, must end <= %v" *)
  | InvalidTransmissionRisk (tr : Z)
      (* "invalid transmission risk: %v, must be >= %v && <= %v" *)
  | EmptyKeySet
      (* "no exposure keys in publish request" *)
  | TooManyKeys (n : nat) (max : Z)
      (* "too many exposure keys in publish: %v, max of %v is allowed" *)
  | InvalidPublishData (cause : error)
      (* "invalid publish data: %v" *)
  | MisalignedOverlap (n lastInterval nextInterval : Z)
      (* "exposure keys have non aligned overlapping intervals. %v overlaps
         with previous key that is good from %v to %v." *)
  | InvalidMaxExposureKeys (max got : Z)
      (* "maxExposureKeys must be > 0 and <= %v, got %v" *).

(** [copy(dst, src)]: the first [min(len(dst), len(src))] elements of
    [src] overwrite those of [dst]. *)
Definition copy {A} (dst src : list A) : list A :=
  take (length dst) src ++ drop (length src) dst.

(** ** The interval clock *)

(** [IntervalNumber] calculates the exposure notification system interval
    number based on the input time. *)
Definition IntervalNumber (t : Time.Time) : Z :=
  Int32.div (Int32.wrap (Time.Unix t)) (Time.Seconds_int32 intervalLength).

(** [TruncateWindow] truncates a time based on the size of the creation
    window. *)
Definition TruncateWindow (t : Time.Time) (d : Time.Duration) : Time.Time :=
  Time.Truncate t d.

(** [NewTransformer]: the pointer and the error of the source are never
    both set, so the result is a sum. *)
Definition NewTransformer (maxExposureKeys : Z)
    (maxIntervalStartAge truncateWindow : Time.Duration)
  : Transformer + error :=
  if (maxExposureKeys <? 0) || (maxExposureKeys >? maxKeysPerPublish)
  then inr (InvalidMaxExposureKeys maxKeysPerPublish maxExposureKeys)
  else inl {| maxExposureKeys := maxExposureKeys;
              maxIntervalStartAge := maxIntervalStartAge;
              truncateWindow := truncateWindow |}.

(** The order that [AndroidNonce] sorts the keys by: that of the encoded
    key strings. *)
Definition key_less (a b : ExposureKey.t) : bool :=
  String.ltb (ExposureKey.Key a) (ExposureKey.Key b).

(** The order that [TransformPublish] sorts its records by. *)
Definition entity_less (a b : Exposure.t) : bool :=
  if Exposure.IntervalNumber a =? Exposure.IntervalNumber b
  then Exposure.IntervalCount a <? Exposure.IntervalCount b
  else Exposure.IntervalNumber a <? Exposure.IntervalNumber b.

(** The body of the overlap loop of [TransformPublish], over the records
    that remain.  The state is the running count of start intervals and
    the two interval variables; the result is the final count and the
    error of the early return, if any. *)
Fixpoint overlap_scan (entities : list Exposure.t)
    (startIntervals : gmap Z Z) (lastInterval nextInterval : Z)
  : gmap Z Z * option error :=
  match entities with
  | [] => (startIntervals, None)
  | ex :: rest =>
      let n := Exposure.IntervalNumber ex in
      (* relies on the default value of 0 for the map value type *)
      let startIntervals :=
        <[n := default 0 (startIntervals !! n) + 1]> startIntervals in
      if n =? lastInterval then
        overlap_scan rest startIntervals lastInterval
          (Int32.add n (Exposure.IntervalCount ex))
      else if n <? nextInterval then
        (startIntervals, Some (MisalignedOverlap n lastInterval nextInterval))
      else
        overlap_scan rest startIntervals n
          (Int32.add n (Exposure.IntervalCount ex))
  end.

Section Model.
(** [sort.Slice] and [strings.ToUpper]. *)
Variable sort_Slice : forall A : Type, (A -> A -> bool) -> list A -> list A.
Variable strings_ToUpper : string -> string.
(** [base64util.DecodeString]: the bytes, and the message of the error
    if there is one. *)
Variable base64util_DecodeString : string -> list byte * option string.

(** [sort.Strings(x)] sorts in increasing order, with the sort routine
    of [sort.Slice] and the order [<] of strings. *)
Definition sort_Strings (x : list string) : list string :=
  sort_Slice string String.ltb x.

(** The loop [for i, r := range regions { out[i] = strings.ToUpper(r) }]
    from index [i] on. *)
Fixpoint upcase_loop (i : nat) (regions : list string) (out : list string)
  : list string :=
  match regions with
  | [] => out
  | r :: regions' => upcase_loop (S i) regions' (<[i := strings_ToUpper r]> out)
  end.

(** [make([]string, len(regions))] filled by the loop. *)
Definition upcase (regions : list string) : list string :=
  upcase_loop 0 regions (replicate (length regions) EmptyString).

(** [fmt.Sprintf("%v.%v.%v.%v", k.Key, k.IntervalNumber, k.IntervalCount,
    k.TransmissionRisk)]. *)
Definition Sprintf_key (k : ExposureKey.t) : string :=
  (ExposureKey.Key k ++ "." ++ Fmt.int_v (ExposureKey.IntervalNumber k)
     ++ "." ++ Fmt.int_v (ExposureKey.IntervalCount k)
     ++ "." ++ Fmt.int_v (ExposureKey.TransmissionRisk k))%string.

(** The cleartext that [AndroidNonce] hashes. *)
Definition AndroidNonce_cleartext (p : Publish.t) : string :=
  (* base64 keys are to be lexicographically sorted *)
  let sortedKeys :=
    copy (replicate (length (Publish.Keys p)) ExposureKey.zero)
         (Publish.Keys p) in
  let sortedKeys :=
    sort_Slice _ key_less sortedKeys in
  (* regions are to be uppercased and then lexographically sorted *)
  let sortedRegions := sort_Strings (upcase (Publish.Regions p)) in
  let keys :=
    fold_left (fun keys k => keys ++ [Sprintf_key k]) sortedKeys [] in
  (Publish.AppPackageName p ++ "|" ++
   Strings.Join keys "," ++ "|" ++
   Strings.Join sortedRegions "," ++ "|" ++
   Publish.VerificationPayload p)%string.

(** [AndroidNonce]: the base64 of the SHA-256 checksum of the
    cleartext. *)
Definition AndroidNonce (p : Publish.t) : string :=
  let cleartext := AndroidNonce_cleartext p in
  let sum := Sha256.Sum256 (list_byte_of_string cleartext) in
  Base64.EncodeToString sum.

(** Whether the environment switches the still-valid check off:
    [skip, _ := strconv.ParseBool(os.Getenv("SKIP_KEY_DATE_VALIDATION"))]. *)
Definition skip_key_date_validation (environ : gmap string string) : bool :=
  (Strconv.ParseBool (Os.Getenv environ "SKIP_KEY_DATE_VALIDATION")).1.

(** [TransformExposureKey] converts individual key data to an exposure
    entity.  Every [return] of the source sets exactly one of the
    pointer and the error, so the result is a sum. *)
Definition TransformExposureKey (environ : gmap string string)
    (exposureKey : ExposureKey.t) (appPackageName : string)
    (upcaseRegions : list string) (createdAt : Time.Time)
    (minIntervalNumber maxIntervalNumber : Z) : Exposure.t + error :=
  match base64util_DecodeString (ExposureKey.Key exposureKey) with
  | (_, Some err) => inr (InvalidKeyEncoding err)
  | (binKey, None) =>
      if negb (length binKey =? KeyLength)%nat then
        inr (InvalidKeyLength (length binKey))
      else
      let ic := ExposureKey.IntervalCount exposureKey in
      if (ic <? MinIntervalCount) || (ic >? MaxIntervalCount) then
        inr (InvalidIntervalCount ic)
      else
      if ExposureKey.IntervalNumber exposureKey <? minIntervalNumber then
        inr (IntervalTooOld (ExposureKey.IntervalNumber exposureKey)
                            minIntervalNumber)
      else
      if ExposureKey.IntervalNumber exposureKey >=? maxIntervalNumber then
        inr (IntervalInFuture (ExposureKey.IntervalNumber exposureKey)
                              maxIntervalNumber)
      else
      let skip := skip_key_date_validation environ in
      if negb skip &&
         (Int32.add (ExposureKey.IntervalNumber exposureKey)
                    (ExposureKey.IntervalCount exposureKey)
          >? maxIntervalNumber) then
        inr (KeyStillValid (ExposureKey.IntervalNumber exposureKey)
                           (ExposureKey.IntervalCount exposureKey)
                           maxIntervalNumber)
      else
      let tr := ExposureKey.TransmissionRisk exposureKey in
      if (tr <? MinTransmissionRisk) || (tr >? MaxTransmissionRisk) then
        inr (InvalidTransmissionRisk tr)
      else
        inl {| Exposure.ExposureKey := binKey;
               Exposure.TransmissionRisk :=
                 ExposureKey.TransmissionRisk exposureKey;
               Exposure.AppPackageName := appPackageName;
               Exposure.Regions := upcaseRegions;
               Exposure.IntervalNumber :=
                 ExposureKey.IntervalNumber exposureKey;
               Exposure.IntervalCount :=
                 ExposureKey.IntervalCount exposureKey;
               Exposure.CreatedAt := createdAt;
               Exposure.LocalProvenance := true;
               Exposure.FederationSyncID := 0 |}
  end.

(** The loop of [TransformPublish] over the submitted keys: the records
    appended so far, or the error of the first key that fails. *)
Fixpoint transform_keys (environ : gmap string string)
    (keys : list ExposureKey.t) (appPackageName : string)
    (upcaseRegions : list string) (createdAt : Time.Time)
    (minIntervalNumber maxIntervalNumber : Z)
    (entities : list Exposure.t) : list Exposure.t + error :=
  match keys with
  | [] => inl entities
  | exposureKey :: keys' =>
      match TransformExposureKey environ exposureKey appPackageName
              upcaseRegions createdAt minIntervalNumber maxIntervalNumber with
      | inr err => inr (InvalidPublishData err)
      | inl exposure =>
          transform_keys environ keys' appPackageName upcaseRegions
            createdAt minIntervalNumber maxIntervalNumber
            (entities ++ [exposure])
      end
  end.

(** [TransformPublish] converts incoming key data to a list of exposure
    entities.  The result is the pair that the source returns, or [None]
    where [entities[0]] would index an empty slice. *)
Definition TransformPublish (environ : gmap string string)
    (t : Transformer) (inData : Publish.t) (batchTime : Time.Time)
  : option (list Exposure.t * option error) :=
  (* Validate the number of keys that want to be published. *)
  if (length (Publish.Keys inData) =? 0)%nat then
    Some ([], Some EmptyKeySet)
  else if Z.of_nat (length (Publish.Keys inData)) >? maxExposureKeys t then
    Some ([], Some (TooManyKeys (length (Publish.Keys inData))
                                (maxExposureKeys t)))
  else
  let createdAt := TruncateWindow batchTime (truncateWindow t) in
  let minIntervalNumber :=
    IntervalNumber
      (Time.Add batchTime (Int64.mul (-1) (maxIntervalStartAge t))) in
  let maxIntervalNumber := IntervalNumber batchTime in
  let upcaseRegions := upcase (Publish.Regions inData) in
  match transform_keys environ (Publish.Keys inData)
          (Publish.AppPackageName inData) upcaseRegions createdAt
          minIntervalNumber maxIntervalNumber [] with
  | inr err => Some ([], Some err)
  | inl entities =>
      let entities := sort_Slice _ entity_less entities in
      match entities with
      | [] => None
      | first :: _ =>
          let lastInterval := Exposure.IntervalNumber first in
          let nextInterval :=
            Int32.add (Exposure.IntervalNumber first)
                      (Exposure.IntervalCount first) in
          match overlap_scan entities ∅ lastInterval nextInterval with
          | (_, Some err) => Some ([], Some err)
          | (_, None) => Some (entities, None)
          end
      end
  end.
End Model.

(** ** The specification's side

    Definitions that follow the words of the specification, to compare
    the code with. *)

(** One key of the cleartext:
    [<encodedKey>.<intervalNumber>.<intervalCount>.<transmissionRisk>]. *)
Definition rendered_key (k : ExposureKey.t) : string :=
  String.concat "."
    [ExposureKey.Key k; Fmt.int_v (ExposureKey.IntervalNumber k);
     Fmt.int_v (ExposureKey.IntervalCount k);
     Fmt.int_v (ExposureKey.TransmissionRisk k)].

(** [<appPackageName>|<joinedKeys>|<joinedRegions>|<verificationPayload>]:
    four fields joined by [|], the keys and the regions joined by [,]. *)
Definition canonical_cleartext (appPackageName : string)
    (sortedKeys : list ExposureKey.t) (sortedRegions : list string)
    (verificationPayload : string) : string :=
  String.concat "|"
    [appPackageName;
     String.concat "," (map rendered_key sortedKeys);
     String.concat "," sortedRegions;
     verificationPayload].

(** The stored record of a key: the decoded key, the three numbers of
    the key, the request's application and upper-cased regions, the
    truncated batch time, local provenance, no federation sync. *)
Definition stored_record (binKey : list byte) (k : ExposureKey.t)
    (appPackageName : string) (upcasedRegions : list string)
    (createdAt : Time.Time) : Exposure.t :=
  {| Exposure.ExposureKey := binKey;
     Exposure.TransmissionRisk := ExposureKey.TransmissionRisk k;
     Exposure.AppPackageName := appPackageName;
     Exposure.Regions := upcasedRegions;
     Exposure.IntervalNumber := ExposureKey.IntervalNumber k;
     Exposure.IntervalCount := ExposureKey.IntervalCount k;
     Exposure.CreatedAt := createdAt;
     Exposure.LocalProvenance := true;
     Exposure.FederationSyncID := 0 |}.




(** A misaligned overlap: the second key starts strictly inside the
    coverage of the first, [X < Y < X + countX]. *)
Definition misaligned (k1 k2 : ExposureKey.t) : Prop :=
  ExposureKey.IntervalNumber k1 < ExposureKey.IntervalNumber k2
  /\ ExposureKey.IntervalNumber k2
     < ExposureKey.IntervalNumber k1 + ExposureKey.IntervalCount k1.

(** The same on stored records, and the records whose count is positive
    and whose coverage ends inside the range of 32-bit integers. *)
Definition overlaps_misaligned (e1 e2 : Exposure.t) : Prop :=
  Exposure.IntervalNumber e1 < Exposure.IntervalNumber e2
  /\ Exposure.IntervalNumber e2
     < Exposure.IntervalNumber e1 + Exposure.IntervalCount e1.

Definition bounded_record (e : Exposure.t) : Prop :=
  1 <= Exposure.IntervalCount e
  /\ Int32.in_range (Exposure.IntervalNumber e + Exposure.IntervalCount e).

(** The acceptance window of a batch, and the keys that pass the per-key
    validation of [TransformPublish] with it. *)
Definition batch_min (t : Transformer) (batchTime : Time.Time) : Z :=
  IntervalNumber (Time.Add batchTime (Int64.mul (-1) (maxIntervalStartAge t))).
Definition batch_max (batchTime : Time.Time) : Z := IntervalNumber batchTime.

(** A key passes per-key validation when the call of
    [TransformExposureKey] that [TransformPublish] makes for it returns
    no error. *)
Definition passes_validation (ToUpper : string -> string)
    (DecodeString : string -> list byte * option string)
    (environ : gmap string string) (t : Transformer) (inData : Publish.t)
    (batchTime : Time.Time) (k : ExposureKey.t) : Prop :=
  exists exposure,
    TransformExposureKey DecodeString environ k
      (Publish.AppPackageName inData) (upcase ToUpper (Publish.Regions inData))
      (TruncateWindow batchTime (truncateWindow t))
      (batch_min t batchTime) (batch_max batchTime) = inl exposure.

(** ** Instances to run the model on

    For a slice of at most six elements every release of Go sorts by
    insertion ([Sort.insertionSort]).  On ASCII strings [strings.ToUpper]
    maps the letters [a] to [z] to upper case; the padded standard
    encoding is the one that [base64util.DecodeString] tries first. *)

Module Sample.
Definition upper (c : ascii) : ascii :=
  let n := nat_of_ascii c in
  if ((97 <=? n) && (n <=? 122))%nat then ascii_of_nat (n - 32) else c.

Fixpoint ToUpper (s : string) : string :=
  match s with
  | EmptyString => EmptyString
  | String c s' => String (upper c) (ToUpper s')
  end.

Definition DecodeString (s : string) : list byte * option string :=
  match Base64.DecodeString s with
  | Some b => (b, None)
  | None => ([], Some "illegal base64 data"%string)
  end.

(** 2021-06-01T00:00:00Z. *)
Definition batchTime : Time.Time := 1622505600 * Time.Second.

Definition transformer : Transformer :=
  {| maxExposureKeys := 21;
     maxIntervalStartAge := 14 * 24 * Time.Hour;
     truncateWindow := Time.Hour |}.

(** The bytes 0 to 15, and 16 to 31. *)
Definition keyA : string := "AAECAwQFBgcICQoLDA0ODw==".
Definition keyB : string := "EBESExQVFhcYGRobHB0eHw==".

Definition key (s : string) (n ic tr : Z) : ExposureKey.t :=
  {| ExposureKey.Key := s; ExposureKey.IntervalNumber := n;
     ExposureKey.IntervalCount := ic; ExposureKey.TransmissionRisk := tr |}.

Definition publish (keys : list ExposureKey.t) (regions : list string)
  : Publish.t :=
  {| Publish.Keys := keys; Publish.Regions := regions;
     Publish.AppPackageName := "uy.gub.salud.plancovid19uy";
     Publish.Platform := "android";
     Publish.DeviceVerificationPayload := "";
     Publish.VerificationPayload := "payload";
     Publish.Padding := "" |}.

End Sample.

(** ** The export-config tool, [tools/export-config/main.go]

    [main] reads its flags, checks them, and writes one signature-info
    row and one export-config row.  The model runs [main] on the parsed
    flags and returns what the process does, in order: what it logs,
    which calls it makes on the database, and how it ends.  The clock,
    the parser of RFC 3339 timestamps, the loading of the database
    configuration from the environment and the database itself are
    Section variables; the database calls thread the state of the
    database. *)

Module ExportConfigTool.

(** The flags, after [flag.Parse]. *)
Record Flags : Type := {
  bucketName : string;
  filenameRoot : string;
  period : Time.Duration;
  region : string;
  fromTimestamp : string;
  thruTimestamp : string;
  signingKey : string;
  signingKeyID : string;
  signingKeyVersion : string;
  appPkgID : string;
  bundleID : string
}.

(** The values that the flag declarations give to flags that are not on
    the command line. *)
Definition defaults : Flags :=
  {| bucketName := "gx"; filenameRoot := "mspuy";
     period := 24 * Time.Hour; region := "UY";
     fromTimestamp := "2020-01-01T00:00:00Z";
     thruTimestamp := "2021-01-01T00:00:00Z";
     signingKey := "gxKey"; signingKeyID := ""; signingKeyVersion := "";
     appPkgID := ""; bundleID := "" |}.

(** [model.SignatureInfo] and [model.ExportConfig], with the fields that
    [main] sets or reads; the identifiers are assigned by the database. *)
Record SignatureInfo : Type := {
  SigningKey : string;
  SigningKeyVersion : string;
  SigningKeyID : string;
  ID : Z
}.

Record ExportConfig : Type := {
  ConfigID : Z;
  BucketName : string;
  FilenameRoot : string;
  Period : Time.Duration;
  Region : string;
  From : Time.Time;
  Thru : Time.Time;
  SignatureInfoIDs : list Z
}.

(** The zero [time.Time], January 1 of year 1. *)
Definition zeroTime : Time.Time := - (Time.unixToInternal * Time.Second).

(** The messages of [log.Fatal] and [log.Fatalf], and of [log.Printf]. *)
Inductive fatal : Type :=
  | BucketNameRequired          (* "--bucket-name is required." *)
  | FilenameRootRequired        (* "--filename-root is required." *)
  | RegionRequired              (* "--region is required." *)
  | FromTimestampInvalid (err : string)
      (* "Failed to parse --from-timestamp (use RFC3339): %v" *)
  | ThruTimestampInvalid (err : string)
      (* "Failed to parse --thru-timestamp (use RFC3339): %v" *)
  | EnvironmentInvalid (err : string)
      (* "error loading environment variables: %v" *)
  | ConnectFailed (err : string)
      (* "unable to connect to database: %v" *)
  | AddSignatureInfoFailed (err : string)   (* "AddSignatureInfo: %v" *)
  | AddExportConfigFailed (err : string)    (* "Failure: %v" *).

Inductive message : Type :=
  | NoSigningKeyWarning
      (* "WARNING - you are creating an export config without a signing
         key!!" *)
  | Created (configID : Z)
      (* "Successfully created ExportConfig %d." *).

(** What the process does.  [Fatal] logs and exits with status 1 at once:
    deferred calls do not run. *)
Inductive event : Type :=
  | Fatal (msg : fatal)
  | Printf (msg : message)
  | Connect
  | CallAddSignatureInfo (si : SignatureInfo)
  | CallAddExportConfig (ec : ExportConfig)
  | Close.

Inductive status : Type :=
  | Returned
  | Exited (code : Z).

Section Main.
Variable strings_ToUpper : string -> string.
(** [time.Now()] and [time.Parse(time.RFC3339, s)]. *)
Variable time_Now : Time.Time.
Variable time_Parse_RFC3339 : string -> Time.Time * option string.
(** [envconfig.Process("database", &config)], [coredb.NewFromEnv] and the
    two calls on the database, each with the state of the database. *)
Variable Config : Type.
Variable DB : Type.
Variable envconfig_Process : Config * option string.
Variable coredb_NewFromEnv : Config -> DB * option string.
Variable AddSignatureInfo :
  DB -> SignatureInfo -> DB * SignatureInfo * option string.
Variable AddExportConfig :
  DB -> ExportConfig -> DB * ExportConfig * option string.

(** The part of [main] from the connection on; [db.Close] is deferred. *)
Definition write_config (f : Flags) (region : string)
    (fromTime thruTime : Time.Time) (db : DB) : list event * status :=
  let si := {| SigningKey := signingKey f;
               SigningKeyVersion := signingKeyVersion f;
               SigningKeyID := signingKeyID f; ID := 0 |} in
  match AddSignatureInfo db si with
  | (_, _, Some err) =>
      ([CallAddSignatureInfo si; Fatal (AddSignatureInfoFailed err)], Exited 1)
  | (db, si', None) =>
      let ec := {| ConfigID := 0; BucketName := bucketName f;
                   FilenameRoot := filenameRoot f; Period := period f;
                   Region := region; From := fromTime; Thru := thruTime;
                   SignatureInfoIDs := [ID si'] |} in
      match AddExportConfig db ec with
      | (_, _, Some err) =>
          ([CallAddSignatureInfo si; CallAddExportConfig ec;
            Fatal (AddExportConfigFailed err)], Exited 1)
      | (_, ec', None) =>
          ([CallAddSignatureInfo si; CallAddExportConfig ec;
            Printf (Created (ConfigID ec')); Close], Returned)
      end
  end.

Definition main (f : Flags) : list event * status :=
  if String.eqb (bucketName f) "" then ([Fatal BucketNameRequired], Exited 1)
  else if String.eqb (filenameRoot f) "" then
    ([Fatal FilenameRootRequired], Exited 1)
  else if String.eqb (region f) "" then ([Fatal RegionRequired], Exited 1)
  else
  let region := strings_ToUpper (region f) in
  let fromParsed :=
    if String.eqb (fromTimestamp f) "" then (time_Now, None)
    else time_Parse_RFC3339 (fromTimestamp f) in
  match fromParsed with
  | (_, Some err) => ([Fatal (FromTimestampInvalid err)], Exited 1)
  | (fromTime, None) =>
  let thruParsed :=
    if String.eqb (thruTimestamp f) "" then (zeroTime, None)
    else time_Parse_RFC3339 (thruTimestamp f) in
  match thruParsed with
  | (_, Some err) => ([Fatal (ThruTimestampInvalid err)], Exited 1)
  | (thruTime, None) =>
  let warning :=
    if String.eqb (signingKey f) "" then [Printf NoSigningKeyWarning]
    else [] in
  match envconfig_Process with
  | (_, Some err) => (warning ++ [Fatal (EnvironmentInvalid err)], Exited 1)
  | (config, None) =>
  match coredb_NewFromEnv config with
  | (_, Some err) => (warning ++ [Fatal (ConnectFailed err)], Exited 1)
  | (db, None) =>
      let (events, st) := write_config f region fromTime thruTime db in
      (warning ++ Connect :: events, st)
  end end end end.
End Main.

(** A world to run [main] in: a database that keeps the rows it is given
    and numbers them from 1, a clock, and a parser that knows the two
    default timestamps. *)
Definition sample_now : Time.Time := 1622505600 * Time.Second.

Definition sample_Parse (s : string) : Time.Time * option string :=
  if String.eqb s "2020-01-01T00:00:00Z" then (1577836800 * Time.Second, None)
  else if String.eqb s "2021-01-01T00:00:00Z" then
    (1609459200 * Time.Second, None)
  else (zeroTime, Some "cannot parse"%string).

Definition sample_connect (config : unit)
  : list SignatureInfo * list ExportConfig * option string :=
  (([], []), None).

Definition sample_AddSignatureInfo
    (db : list SignatureInfo * list ExportConfig) (si : SignatureInfo)
  : list SignatureInfo * list ExportConfig * SignatureInfo * option string :=
  let si' := {| SigningKey := SigningKey si;
                SigningKeyVersion := SigningKeyVersion si;
                SigningKeyID := SigningKeyID si;
                ID := Z.of_nat (length db.1) + 1 |} in
  ((db.1 ++ [si'], db.2), si', None).

Definition sample_AddExportConfig
    (db : list SignatureInfo * list ExportConfig) (ec : ExportConfig)
  : list SignatureInfo * list ExportConfig * ExportConfig * option string :=
  let ec' := {| ConfigID := Z.of_nat (length db.2) + 1;
                BucketName := BucketName ec; FilenameRoot := FilenameRoot ec;
                Period := Period ec; Region := Region ec; From := From ec;
                Thru := Thru ec; SignatureInfoIDs := SignatureInfoIDs ec |} in
  ((db.1, db.2 ++ [ec']), ec', None).
End ExportConfigTool.
(** * Properties

    ** Test vectors of FIPS 180-4 and RFC 4648 *)

Example Sum256_empty :
  hex (Sha256.Sum256 []) =
  "e3b0c44298fc1c149afbf4c8996fb92427ae41e4649b934ca495991b7852b855"%string.
Proof. vm_compute. reflexivity. Qed.

Example Sum256_abc :
  hex (Sha256.Sum256 (list_byte_of_string "abc")) =
  "ba7816bf8f01cfea414140de5dae2223b00361a396177a9cb410ff61f20015ad"%string.
Proof. vm_compute. reflexivity. Qed.

Example Sum256_two_blocks :
  hex (Sha256.Sum256 (list_byte_of_string
    "abcdbcdecdefdefgefghfghighijhijkijkljklmklmnlmnomnopnopq")) =
  "248d6a61d20638b8e5c026930c3e6039a33ce45964ff2167f6ecedd419db06c1"%string.
Proof. vm_compute. reflexivity. Qed.

Example EncodeToString_foobar :
  map Base64.EncodeToString
      (map list_byte_of_string ["f"; "fo"; "foo"; "foob"; "fooba"; "foobar"]%string) =
  ["Zg=="; "Zm8="; "Zm9v"; "Zm9vYg=="; "Zm9vYmE="; "Zm9vYmFy"]%string.
Proof. vm_compute. reflexivity. Qed.

Example DecodeString_foobar :
  map Base64.DecodeString ["Zg=="; "Zm8="; "Zm9v"; "Zm9vYg=="; "Zm9vYmFy"; "Zm9"; "Z===" ]%string =
  map Some (map list_byte_of_string ["f"; "fo"; "foo"; "foob"; "foobar"]%string) ++ [None; None].
Proof. vm_compute. reflexivity. Qed.

(** ** The insertion sort meets the contract of [sort.Slice] *)

Lemma sift_perm {A} (less : A -> A -> bool) x before :
  Sort.sift less x before ≡ₚ x :: before.
Proof.
  induction before as [|y before IH]; simpl; [done|].
  destruct (less x y); [|done].
  rewrite IH. apply Permutation_swap.
Qed.

Lemma sift_sorted {A} (less : A -> A -> bool) x before :
  Sort.StrictWeakOrder less ->
  StronglySorted (fun a b => less a b = false) before ->
  StronglySorted (fun a b => less a b = false) (Sort.sift less x before).
Proof.
  intros [Hasym Hneg]. induction before as [|y before IH]; simpl; intros Hs.
  - repeat constructor.
  - apply StronglySorted_inv in Hs as [Hs Hy].
    destruct (less x y) eqn:Hxy.
    + constructor; [auto|].
      rewrite (sift_perm less x before). constructor; auto.
    + constructor; [by constructor|].
      constructor; [done|].
      eapply Forall_impl; [exact Hy|]. simpl. intros z Hyz. eauto.
Qed.

Lemma insertionSort_perm {A} (less : A -> A -> bool) l :
  Sort.insertionSort less l ≡ₚ l.
Proof.
  unfold Sort.insertionSort.
  assert (H : forall acc,
    fold_left (fun before x => Sort.sift less x before) l acc ≡ₚ l ++ acc).
  { induction l as [|x l IH]; intros acc; simpl; [done|].
    rewrite IH, sift_perm. by rewrite Permutation_middle. }
  rewrite <- Permutation_rev, H. by rewrite app_nil_r.
Qed.

Lemma insertionSort_sorted {A} (less : A -> A -> bool) l :
  Sort.StrictWeakOrder less -> Sort.sorted_by less (Sort.insertionSort less l).
Proof.
  intros Hless. unfold Sort.insertionSort, Sort.sorted_by.
  assert (H : forall acc,
    StronglySorted (fun a b => less a b = false) acc ->
    StronglySorted (fun a b => less a b = false)
      (fold_left (fun before x => Sort.sift less x before) l acc)).
  { induction l as [|x l IH]; intros acc Hacc; simpl; [done|].
    apply IH. by apply sift_sorted. }
  specialize (H [] (SSorted_nil _)).
  revert H. generalize (fold_left (fun before x => Sort.sift less x before) l []).
  intros l'. induction l' as [|a l' IH]; intros Hs; simpl.
  - constructor.
  - apply StronglySorted_inv in Hs as [Hs Ha].
    apply StronglySorted_app_2; [|auto|repeat constructor].
    intros x1 x2 Hx1 Hx2. apply list_elem_of_singleton in Hx2 as ->.
    apply list_elem_of_In, in_rev, list_elem_of_In in Hx1.
    rewrite Forall_forall in Ha. by apply Ha.
Qed.

Lemma insertionSort_Correct : Sort.Correct (@Sort.insertionSort).
Proof.
  split; [apply @insertionSort_perm | apply @insertionSort_sorted].
Qed.
(** The byte-wise order [<] of Go strings is [String.ltb]. *)

Lemma ascii_compare_trans c (a1 a2 a3 : ascii) :
  Ascii.compare a1 a2 = c -> Ascii.compare a2 a3 = c -> Ascii.compare a1 a3 = c.
Proof.
  unfold Ascii.compare. destruct c; intros H1 H2.
  - apply N.compare_eq_iff in H1, H2. apply N.compare_eq_iff. congruence.
  - rewrite N.compare_lt_iff in *. lia.
  - rewrite N.compare_gt_iff in *. lia.
Qed.

Lemma ascii_compare_refl (a : ascii) : Ascii.compare a a = Eq.
Proof. unfold Ascii.compare. apply N.compare_refl. Qed.

Lemma string_compare_trans c (s1 s2 s3 : string) :
  String.compare s1 s2 = c -> String.compare s2 s3 = c ->
  String.compare s1 s3 = c.
Proof.
  revert s2 s3. induction s1 as [|a1 s1 IH]; intros [|a2 s2] [|a3 s3];
    simpl; try congruence.
  destruct (Ascii.compare a1 a2) eqn:H12, (Ascii.compare a2 a3) eqn:H23;
    try congruence;
    try (apply Ascii.compare_eq_iff in H12; subst a2);
    try (apply Ascii.compare_eq_iff in H23; subst a3);
    rewrite ?ascii_compare_refl, ?H12, ?H23; try done.
  - apply IH.
  - by rewrite (ascii_compare_trans Lt a1 a2 a3).
  - by rewrite (ascii_compare_trans Gt a1 a2 a3).
Qed.

Lemma string_ltb_asym (s1 s2 : string) :
  String.ltb s1 s2 = true -> String.ltb s2 s1 = false.
Proof.
  unfold String.ltb. rewrite (String.compare_antisym s1 s2).
  by destruct (String.compare s2 s1).
Qed.

Lemma string_ltb_negtrans (s1 s2 s3 : string) :
  String.ltb s1 s2 = false -> String.ltb s2 s3 = false ->
  String.ltb s1 s3 = false.
Proof.
  unfold String.ltb.
  destruct (String.compare s1 s2) eqn:H12; [|done|];
    destruct (String.compare s2 s3) eqn:H23; try done; intros _ _.
  - apply String.compare_eq_iff in H12. subst. by rewrite H23.
  - apply String.compare_eq_iff in H12. subst. by rewrite H23.
  - apply String.compare_eq_iff in H23. subst. by rewrite H12.
  - by rewrite (string_compare_trans Gt s1 s2 s3).
Qed.

Lemma string_ltb_antisym (s1 s2 : string) :
  String.ltb s1 s2 = false -> String.ltb s2 s1 = false -> s1 = s2.
Proof.
  unfold String.ltb. rewrite (String.compare_antisym s1 s2).
  destruct (String.compare s2 s1) eqn:H; try done.
  intros _ _. symmetry. by apply String.compare_eq_iff.
Qed.

Lemma string_ltb_StrictWeakOrder {A} (f : A -> string) :
  Sort.StrictWeakOrder (fun a b => String.ltb (f a) (f b)).
Proof.
  split; intros *; [apply string_ltb_asym | apply string_ltb_negtrans].
Qed.


(** ** The sample instances *)

Example Sample_keys_decode :
  map (fun s => length (Sample.DecodeString s).1) [Sample.keyA; Sample.keyB]
  = [16%nat; 16%nat]
  /\ Base64.EncodeToString (Sample.DecodeString Sample.keyA).1 = Sample.keyA
  /\ Sample.ToUpper "uy,Us-ca" = "UY,US-CA"%string
  /\ IntervalNumber Sample.batchTime = 2704176
  /\ batch_min Sample.transformer Sample.batchTime = 2704176 - 14 * 144.
Proof. vm_compute. done. Qed.

(** ** Fixed-width arithmetic and the interval clock *)

Lemma Int32_wrap_id (x : Z) : Int32.in_range x -> Int32.wrap x = x.
Proof.
  unfold Int32.in_range, Int32.wrap, Int32.min_int, Int32.max_int, Int32.modulus.
  intros H. rewrite Z.mod_small; lia.
Qed.

Lemma Int32_wrap_range (x : Z) : Int32.in_range (Int32.wrap x).
Proof.
  unfold Int32.in_range, Int32.wrap, Int32.min_int, Int32.max_int, Int32.modulus.
  pose proof (Z.mod_pos_bound (x + 2147483648) 4294967296). lia.
Qed.

Lemma Int32_add_id (x y : Z) : Int32.in_range (x + y) -> Int32.add x y = x + y.
Proof. apply Int32_wrap_id. Qed.

Lemma intervalLength_seconds : Time.Seconds_int32 intervalLength = 600.
Proof. reflexivity. Qed.

Lemma quot_600_bounds (x : Z) :
  Int32.in_range x -> -3579139 <= Z.quot x 600 <= 3579139.
Proof.
  unfold Int32.in_range, Int32.min_int, Int32.max_int. intros H.
  split.
  - change (-3579139) with (Z.quot (-2147483648) 600).
    apply Z.quot_le_mono; lia.
  - change 3579139 with (Z.quot 2147483647 600).
    apply Z.quot_le_mono; lia.
Qed.

(** Whatever the instant, the interval number is the quotient, rounded
    toward zero, of the low 32 bits of the Unix seconds by 600. *)
Lemma IntervalNumber_quot (t : Time.Time) :
  IntervalNumber t = Z.quot (Int32.wrap (Time.Unix t)) 600.
Proof.
  unfold IntervalNumber, Int32.div. rewrite intervalLength_seconds.
  apply Int32_wrap_id.
  pose proof (quot_600_bounds _ (Int32_wrap_range (Time.Unix t))).
  unfold Int32.in_range, Int32.min_int, Int32.max_int. lia.
Qed.

Lemma IntervalNumber_bounds (t : Time.Time) :
  -3579139 <= IntervalNumber t <= 3579139.
Proof.
  rewrite IntervalNumber_quot. apply quot_600_bounds, Int32_wrap_range.
Qed.

(** C6, as amended.  For every instant [t] the interval number is a signed
    32-bit integer ([IntervalNumber] is a total function: it cannot fail);
    when the Unix seconds of [t] fit in 32 bits it is their quotient by
    600 rounded toward zero, which is the floor of the quotient when the
    Unix seconds are not negative. *)
Theorem IntervalNumber_floor (t : Time.Time) :
  Int32.in_range (IntervalNumber t)
  /\ (Int32.in_range (Time.Unix t) ->
      IntervalNumber t = Z.quot (Time.Unix t) 600)
  /\ (0 <= Time.Unix t <= Int32.max_int ->
      IntervalNumber t = Time.Unix t / 600).
Proof.
  split; [|split].
  - pose proof (IntervalNumber_bounds t).
    unfold Int32.in_range, Int32.min_int, Int32.max_int. lia.
  - intros H. by rewrite IntervalNumber_quot, Int32_wrap_id.
  - intros H. rewrite IntervalNumber_quot, Int32_wrap_id.
    + apply Z.quot_div_nonneg; lia.
    + unfold Int32.in_range, Int32.min_int, Int32.max_int in *. lia.
Qed.

(** 2021-06-01T00:00:00Z lies in the range, and its interval number is
    the floor. *)
Lemma IntervalNumber_floor_witness :
  0 <= Time.Unix Sample.batchTime <= Int32.max_int
  /\ IntervalNumber Sample.batchTime = Time.Unix Sample.batchTime / 600.
Proof.
  assert (H : 0 <= Time.Unix Sample.batchTime <= Int32.max_int)
    by (vm_compute; split; discriminate).
  split; [exact H|].
  exact (proj2 (proj2 (IntervalNumber_floor Sample.batchTime)) H).
Defined.

(** C6 as stated fails.  One second before the epoch the floor is [-1]
    and the code returns [0]; at 2038-01-19T03:14:08Z, the first second
    that does not fit in 32 bits, the floor is [3579139] and the code
    returns [-3579139]. *)
Lemma IntervalNumber_floor_counterexample :
  (IntervalNumber (-1 * Time.Second) = 0
   /\ Time.Unix (-1 * Time.Second) / 600 = -1)
  /\ (IntervalNumber (2147483648 * Time.Second) = -3579139
      /\ Time.Unix (2147483648 * Time.Second) / 600 = 3579139
      /\ Int32.in_range 3579139).
Proof. vm_compute. repeat split; discriminate. Qed.

(** ** Slices and strings *)

Lemma copy_make {A} (zero : A) (src : list A) :
  copy (replicate (length src) zero) src = src.
Proof.
  unfold copy. rewrite length_replicate, firstn_all.
  rewrite drop_ge by (by rewrite length_replicate).
  apply app_nil_r.
Qed.

Lemma upcase_loop_spec (ToUpper : string -> string) regions :
  forall i out, length out = (i + length regions)%nat ->
  upcase_loop ToUpper i regions out = take i out ++ map ToUpper regions.
Proof.
  induction regions as [|r regions IH]; intros i out Hlen; simpl in *.
  - rewrite app_nil_r, take_ge; [done | lia].
  - rewrite IH by (rewrite length_insert; lia).
    assert (Hi : (i < length out)%nat) by lia.
    rewrite (take_S_r _ i (ToUpper r)) by (by apply list_lookup_insert_eq).
    rewrite take_insert_ge by lia. by rewrite <- app_assoc.
Qed.

(** The loop upper-cases every region, in place and in order. *)
Lemma upcase_map (ToUpper : string -> string) regions :
  upcase ToUpper regions = map ToUpper regions.
Proof.
  unfold upcase. rewrite upcase_loop_spec by (by rewrite length_replicate).
  by rewrite take_0.
Qed.

Lemma append_assoc (s1 s2 s3 : string) :
  ((s1 ++ s2) ++ s3 = s1 ++ (s2 ++ s3))%string.
Proof.
  induction s1 as [|c s1 IH]; [done|].
  change (String c ((s1 ++ s2) ++ s3) = String c (s1 ++ s2 ++ s3))%string.
  by rewrite IH.
Qed.

Lemma Join_concat (elems : list string) (sep : string) :
  Strings.Join elems sep = String.concat sep elems.
Proof.
  destruct elems as [|e rest]; [done|]. simpl.
  revert e. induction rest as [|s rest IH]; intros e; [done|].
  cbn [fold_left]. rewrite IH. destruct rest as [|s' rest].
  - reflexivity.
  - change (String.concat sep (e :: s :: s' :: rest))
      with (e ++ sep ++ String.concat sep (s :: s' :: rest))%string.
    change (String.concat sep (s :: s' :: rest))
      with (s ++ sep ++ String.concat sep (s' :: rest))%string.
    change (String.concat sep ((e ++ sep ++ s)%string :: s' :: rest))
      with ((e ++ sep ++ s) ++ sep ++ String.concat sep (s' :: rest))%string.
    by rewrite !append_assoc.
Qed.

Lemma append_loop_map {A B} (f : A -> B) (l : list A) (acc : list B) :
  fold_left (fun keys k => keys ++ [f k]) l acc = acc ++ map f l.
Proof.
  revert acc. induction l as [|x l IH]; intros acc; simpl.
  - by rewrite app_nil_r.
  - by rewrite IH, <- app_assoc.
Qed.

Lemma Sprintf_key_rendered (k : ExposureKey.t) :
  Sprintf_key k = rendered_key k.
Proof. reflexivity. Qed.

(** ** The attestation nonce *)

Section Nonce.
Variable sort_Slice : forall A : Type, (A -> A -> bool) -> list A -> list A.
Variable strings_ToUpper : string -> string.
Hypothesis sort_Slice_Correct : Sort.Correct sort_Slice.

Lemma AndroidNonce_cleartext_canonical (p : Publish.t) :
  AndroidNonce_cleartext sort_Slice strings_ToUpper p =
  canonical_cleartext (Publish.AppPackageName p)
    (sort_Slice _ key_less (Publish.Keys p))
    (sort_Slice _ String.ltb (map strings_ToUpper (Publish.Regions p)))
    (Publish.VerificationPayload p).
Proof.
  unfold AndroidNonce_cleartext, canonical_cleartext, sort_Strings.
  rewrite copy_make, upcase_map, append_loop_map, !Join_concat.
  reflexivity.
Qed.

(** C5.  The nonce is the padded base-64 encoding of the SHA-256 digest
    of the four fields joined by [|]: the application, the keys, each
    rendered as [key.intervalNumber.intervalCount.transmissionRisk] and
    joined by [,], the regions joined by [,], and the verification
    payload.  The keys are those of the request in ascending order of
    the encoded key, the regions those of the request upper-cased, in
    ascending order.  An absent field is empty and keeps its
    separators: the cleartext of a request without keys and regions is
    [appPackageName|||verificationPayload]. *)
Theorem AndroidNonce_canonical (p : Publish.t) :
  let sortedKeys := sort_Slice _ key_less (Publish.Keys p) in
  let sortedRegions :=
    sort_Slice _ String.ltb (map strings_ToUpper (Publish.Regions p)) in
  AndroidNonce sort_Slice strings_ToUpper p =
    Base64.EncodeToString
      (Sha256.Sum256
         (list_byte_of_string
            (canonical_cleartext (Publish.AppPackageName p) sortedKeys
               sortedRegions (Publish.VerificationPayload p))))
  /\ sortedKeys ≡ₚ Publish.Keys p
  /\ StronglySorted (fun a b => key_less b a = false) sortedKeys
  /\ sortedRegions ≡ₚ map strings_ToUpper (Publish.Regions p)
  /\ StronglySorted (fun a b => String.ltb b a = false) sortedRegions
  /\ (Publish.Keys p = [] -> Publish.Regions p = [] ->
      canonical_cleartext (Publish.AppPackageName p) sortedKeys
        sortedRegions (Publish.VerificationPayload p)
      = (Publish.AppPackageName p ++ "|||" ++ Publish.VerificationPayload p)%string).
Proof.
  destruct sort_Slice_Correct as [Hperm Hsorted].
  intros sortedKeys sortedRegions. repeat split.
  - unfold AndroidNonce. by rewrite AndroidNonce_cleartext_canonical.
  - apply Hperm.
  - apply (Hsorted _ key_less), (string_ltb_StrictWeakOrder ExposureKey.Key).
  - apply Hperm.
  - apply (Hsorted _ String.ltb), (string_ltb_StrictWeakOrder id).
  - intros Hk Hr. subst sortedKeys sortedRegions. rewrite Hk, Hr. simpl.
    pose proof (Hperm _ key_less []) as H1.
    pose proof (Hperm _ String.ltb []) as H2.
    apply Permutation_nil_r in H1, H2. rewrite H1, H2. reflexivity.
Qed.

(** C1, as amended.  When the keys that share an encoded key string are
    equal in every field, a request with the keys permuted and the
    regions permuted has the nonce of the original request. *)
Theorem AndroidNonce_permutation (p : Publish.t)
    (keys : list ExposureKey.t) (regions : list string) :
  keys ≡ₚ Publish.Keys p ->
  regions ≡ₚ Publish.Regions p ->
  (forall k1 k2, k1 ∈ Publish.Keys p -> k2 ∈ Publish.Keys p ->
     ExposureKey.Key k1 = ExposureKey.Key k2 -> k1 = k2) ->
  AndroidNonce sort_Slice strings_ToUpper
    {| Publish.Keys := keys; Publish.Regions := regions;
       Publish.AppPackageName := Publish.AppPackageName p;
       Publish.Platform := Publish.Platform p;
       Publish.DeviceVerificationPayload := Publish.DeviceVerificationPayload p;
       Publish.VerificationPayload := Publish.VerificationPayload p;
       Publish.Padding := Publish.Padding p |}
  = AndroidNonce sort_Slice strings_ToUpper p.
Proof.
  intros Hkeys Hregions Hties.
  destruct sort_Slice_Correct as [Hperm Hsorted].
  unfold AndroidNonce. rewrite !AndroidNonce_cleartext_canonical. simpl.
  do 3 f_equal. f_equal.
  - (* the sorted keys *)
    apply (StronglySorted_unique_strong (fun a b => key_less b a = false)).
    + intros k1 k2 H1 H2 H12 H21.
      rewrite Hperm, Hkeys in H1. rewrite Hperm in H2.
      apply Hties; [done..|]. by apply string_ltb_antisym.
    + apply (Hsorted _ key_less), (string_ltb_StrictWeakOrder ExposureKey.Key).
    + apply (Hsorted _ key_less), (string_ltb_StrictWeakOrder ExposureKey.Key).
    + by rewrite !Hperm.
  - (* the sorted regions *)
    apply (StronglySorted_unique_strong (fun a b => String.ltb b a = false)).
    + intros r1 r2 _ _ H12 H21. by apply string_ltb_antisym.
    + apply (Hsorted _ String.ltb), (string_ltb_StrictWeakOrder id).
    + apply (Hsorted _ String.ltb), (string_ltb_StrictWeakOrder id).
    + rewrite !Hperm. by apply Permutation_map.
Qed.
End Nonce.

Lemma AndroidNonce_canonical_witness :
  AndroidNonce (@Sort.insertionSort) Sample.ToUpper
    (Sample.publish [Sample.key Sample.keyB 2704000 144 3;
                     Sample.key Sample.keyA 2703856 144 3] ["uy"; "Br"])
  = Base64.EncodeToString
      (Sha256.Sum256
         (list_byte_of_string
            ("uy.gub.salud.plancovid19uy|" ++
             "AAECAwQFBgcICQoLDA0ODw==.2703856.144.3," ++
             "EBESExQVFhcYGRobHB0eHw==.2704000.144.3|BR,UY|payload"))).
Proof.
  pose proof (AndroidNonce_canonical (@Sort.insertionSort) Sample.ToUpper
                insertionSort_Correct
                (Sample.publish [Sample.key Sample.keyB 2704000 144 3;
                                 Sample.key Sample.keyA 2703856 144 3]
                                ["uy"; "Br"])) as H.
  exact (proj1 H).
Defined.

Lemma AndroidNonce_permutation_witness :
  AndroidNonce (@Sort.insertionSort) Sample.ToUpper
    (Sample.publish [Sample.key Sample.keyA 2703856 144 3;
                     Sample.key Sample.keyB 2704000 144 3] ["Br"; "uy"])
  = AndroidNonce (@Sort.insertionSort) Sample.ToUpper
      (Sample.publish [Sample.key Sample.keyB 2704000 144 3;
                       Sample.key Sample.keyA 2703856 144 3] ["uy"; "Br"]).
Proof.
  apply (AndroidNonce_permutation (@Sort.insertionSort) Sample.ToUpper
           insertionSort_Correct
           (Sample.publish [Sample.key Sample.keyB 2704000 144 3;
                            Sample.key Sample.keyA 2703856 144 3]
                           ["uy"; "Br"])).
  - apply perm_swap.
  - apply perm_swap.
  - intros k1 k2 H1 H2 Hk.
    apply list_elem_of_In in H1, H2. simpl in H1, H2.
    destruct H1 as [<-|[<-|[]]], H2 as [<-|[<-|[]]];
      try reflexivity; discriminate Hk.
Defined.

(** C1 as stated fails.  Two keys with the same encoded key and different
    interval numbers are not separated by the order of the sort, which
    leaves them in the order of the request: the request with the two
    keys exchanged has another cleartext, and another nonce. *)
Lemma AndroidNonce_permutation_counterexample :
  let k1 := Sample.key Sample.keyA 2703856 144 3 in
  let k2 := Sample.key Sample.keyA 2704000 144 3 in
  [k2; k1] ≡ₚ [k1; k2]
  /\ AndroidNonce_cleartext (@Sort.insertionSort) Sample.ToUpper
       (Sample.publish [k1; k2] ["UY"])
     = ("uy.gub.salud.plancovid19uy|" ++
        "AAECAwQFBgcICQoLDA0ODw==.2703856.144.3," ++
        "AAECAwQFBgcICQoLDA0ODw==.2704000.144.3|UY|payload")%string
  /\ AndroidNonce_cleartext (@Sort.insertionSort) Sample.ToUpper
       (Sample.publish [k2; k1] ["UY"])
     = ("uy.gub.salud.plancovid19uy|" ++
        "AAECAwQFBgcICQoLDA0ODw==.2704000.144.3," ++
        "AAECAwQFBgcICQoLDA0ODw==.2703856.144.3|UY|payload")%string
  /\ AndroidNonce (@Sort.insertionSort) Sample.ToUpper
       (Sample.publish [k2; k1] ["UY"])
     <> AndroidNonce (@Sort.insertionSort) Sample.ToUpper
          (Sample.publish [k1; k2] ["UY"]).
Proof.
  intros k1 k2. split; [apply perm_swap|].
  split; [vm_compute; reflexivity|].
  split; [vm_compute; reflexivity|].
  vm_compute. discriminate.
Qed.

(** ** The key transformer *)



Section KeyTransformer.
Variable base64util_DecodeString : string -> list byte * option string.




(** Whatever the environment, a key that passes becomes the stored
    record of the specification, and its numbers are inside the
    window. *)
Lemma TransformExposureKey_inl environ k app regions createdAt minN maxN e :
  TransformExposureKey base64util_DecodeString environ k app regions createdAt minN maxN = inl e ->
  e = stored_record (base64util_DecodeString (ExposureKey.Key k)).1 k app
        regions createdAt
  /\ 1 <= ExposureKey.IntervalCount k <= 144
  /\ minN <= ExposureKey.IntervalNumber k < maxN.
Proof.
  unfold TransformExposureKey, MinIntervalCount, MaxIntervalCount.
  destruct (base64util_DecodeString (ExposureKey.Key k)) as [binKey [err|]];
    [done|].
  repeat (case_match; try done).
  intros [= <-]. split; [done|].
  repeat match goal with
         | H : (_ || _) = false |- _ => apply orb_false_elim in H as [? ?]
         end.
  lia.
Qed.

End KeyTransformer.



(** ** The overlap scan *)

Lemma entity_less_false (x y : Exposure.t) :
  entity_less y x = false
  <-> Exposure.IntervalNumber x < Exposure.IntervalNumber y
      \/ (Exposure.IntervalNumber x = Exposure.IntervalNumber y
          /\ Exposure.IntervalCount x <= Exposure.IntervalCount y).
Proof.
  unfold entity_less.
  destruct (Z.eqb_spec (Exposure.IntervalNumber y) (Exposure.IntervalNumber x)).
  - rewrite Z.ltb_ge. lia.
  - rewrite Z.ltb_ge. lia.
Qed.

Lemma entity_less_StrictWeakOrder : Sort.StrictWeakOrder entity_less.
Proof.
  split.
  - intros x y Hxy. apply entity_less_false.
    destruct (entity_less y x) eqn:Hyx; [|by apply entity_less_false].
    exfalso. revert Hxy Hyx. unfold entity_less.
    repeat case_match; rewrite ?Z.ltb_lt, ?Z.eqb_eq, ?Z.eqb_neq in *; lia.
  - intros x y z. rewrite !entity_less_false. lia.
Qed.

(** The only error of the scan is the misaligned overlap. *)
Lemma overlap_scan_error es : forall m last next err,
  (overlap_scan es m last next).2 = Some err ->
  exists n last' next', err = MisalignedOverlap n last' next'.
Proof.
  induction es as [|ex rest IH]; intros m last next err; simpl; [done|].
  repeat case_match; eauto.
  simpl. intros [= <-]. eauto.
Qed.

(** The running count of start intervals has no influence on the
    outcome of the scan. *)
Lemma overlap_scan_count_irrelevant es : forall m m' last next,
  (overlap_scan es m last next).2 = (overlap_scan es m' last next).2.
Proof.
  induction es as [|ex rest IH]; intros m m' last next; simpl; [done|].
  repeat case_match; eauto.
Qed.

(** The scan of sorted records, started behind a record that begins at
    [last] and covers [c] intervals, passes exactly when every record
    begins at [last] or not before [last + c], and no two of the records
    overlap misaligned. *)
Lemma overlap_scan_None_iff es : forall m last next c,
  Sort.sorted_by entity_less es ->
  Forall bounded_record es ->
  (forall e, e ∈ es ->
     last <= Exposure.IntervalNumber e
     /\ (Exposure.IntervalNumber e = last -> c <= Exposure.IntervalCount e)) ->
  next = last + c ->
  (overlap_scan es m last next).2 = None
  <-> (forall e, e ∈ es ->
         Exposure.IntervalNumber e = last \/ next <= Exposure.IntervalNumber e)
      /\ (forall e1 e2, e1 ∈ es -> e2 ∈ es -> ~ overlaps_misaligned e1 e2).
Proof.
  unfold Sort.sorted_by.
  induction es as [|ex rest IH]; intros m last next c Hs Hok Hge ->.
  { simpl. split; [|done]. intros _.
    split; intros *; rewrite elem_of_nil; done. }
  apply StronglySorted_inv in Hs as [Hs Hex].
  apply Forall_cons in Hok as [[Hc Hsum] Hok].
  rewrite Forall_forall in Hex.
  assert (Hlex : forall e, e ∈ rest ->
    Exposure.IntervalNumber ex < Exposure.IntervalNumber e
    \/ (Exposure.IntervalNumber ex = Exposure.IntervalNumber e
        /\ Exposure.IntervalCount ex <= Exposure.IntervalCount e)).
  { intros e He. by apply entity_less_false, Hex. }
  clear Hex.
  destruct (Hge ex) as [Hge_ex Hc_ex]; [left|].
  assert (Hge_rest : forall e, e ∈ rest -> last <= Exposure.IntervalNumber e).
  { intros e He. apply Hge. by right. }
  cbn [overlap_scan]. rewrite Int32_add_id by done.
  destruct (Z.eqb_spec (Exposure.IntervalNumber ex) last) as [Heq|Hne].
  - (* the same start: the coverage moves to that of [ex] *)
    rewrite (IH _ last _ (Exposure.IntervalCount ex) Hs Hok); [| |lia].
    2: { intros e He. split; [auto|]. destruct (Hlex e He); lia. }
    split.
    + intros [Hstart Hmis]. split.
      * intros e [->|He]%elem_of_cons; [by left|].
        destruct (Hstart e He); [by left | right; lia].
      * intros e1 e2 [->|H1]%elem_of_cons [->|H2]%elem_of_cons;
          unfold overlaps_misaligned.
        -- lia.
        -- destruct (Hstart e2 H2); lia.
        -- specialize (Hge_rest e1 H1). lia.
        -- apply Hmis; done.
    + intros [Hstart Hmis]. split.
      * intros e He.
        assert (H : ~ overlaps_misaligned ex e)
          by (apply Hmis; [left | by right]).
        unfold overlaps_misaligned in H. specialize (Hge_rest e He). lia.
      * intros e1 e2 H1 H2. apply Hmis; by right.
  - destruct (Z.ltb_spec (Exposure.IntervalNumber ex) (last + c)) as [Hlt|Hnext].
    + (* a start inside the coverage of the previous start *)
      cbn. split; [done|]. intros [Hstart _].
      destruct (Hstart ex); [left|..]; lia.
    + (* a start at or after the end of the coverage *)
      rewrite (IH _ (Exposure.IntervalNumber ex) _ (Exposure.IntervalCount ex)
                 Hs Hok); [| |lia].
      2: { intros e He. destruct (Hlex e He); lia. }
      split.
      * intros [Hstart Hmis]. split.
        -- intros e [->|He]%elem_of_cons; [right; lia|].
           destruct (Hlex e He); right; lia.
        -- intros e1 e2 [->|H1]%elem_of_cons [->|H2]%elem_of_cons;
             unfold overlaps_misaligned.
           ++ lia.
           ++ destruct (Hstart e2 H2); lia.
           ++ destruct (Hlex e1 H1); lia.
           ++ apply Hmis; done.
      * intros [Hstart Hmis]. split.
        -- intros e He.
           assert (H : ~ overlaps_misaligned ex e)
             by (apply Hmis; [left | by right]).
           unfold overlaps_misaligned in H. destruct (Hlex e He); lia.
        -- intros e1 e2 H1 H2. apply Hmis; by right.
Qed.

(** From its initial state, the scan of a sorted batch passes exactly
    when no two records overlap misaligned. *)
Lemma overlap_scan_batch first rest m :
  Sort.sorted_by entity_less (first :: rest) ->
  Forall bounded_record (first :: rest) ->
  (overlap_scan (first :: rest) m (Exposure.IntervalNumber first)
     (Int32.add (Exposure.IntervalNumber first) (Exposure.IntervalCount first))).2
    = None
  <-> (forall e1 e2, e1 ∈ first :: rest -> e2 ∈ first :: rest ->
         ~ overlaps_misaligned e1 e2).
Proof.
  intros Hs Hok.
  assert (Hlex : forall e, e ∈ first :: rest ->
    Exposure.IntervalNumber first < Exposure.IntervalNumber e
    \/ (Exposure.IntervalNumber first = Exposure.IntervalNumber e
        /\ Exposure.IntervalCount first <= Exposure.IntervalCount e)).
  { intros e [->|He]%elem_of_cons; [lia|].
    apply StronglySorted_inv in Hs as [_ Hs]. rewrite Forall_forall in Hs.
    by apply entity_less_false, Hs. }
  pose proof (Forall_inv Hok) as [Hc Hsum].
  rewrite Int32_add_id by done.
  rewrite (overlap_scan_None_iff _ m _ _ (Exposure.IntervalCount first) Hs Hok);
    [| |done].
  2: { intros e He. destruct (Hlex e He); lia. }
  split; [by intros [_ H]|]. intros Hmis. split; [|done].
  intros e He.
  assert (H : ~ overlaps_misaligned first e) by (apply Hmis; [left | done]).
  unfold overlaps_misaligned in H. destruct (Hlex e He); lia.
Qed.

(** ** The batch validator *)

Section Batch.
Variable sort_Slice : forall A : Type, (A -> A -> bool) -> list A -> list A.
Variable strings_ToUpper : string -> string.
Variable base64util_DecodeString : string -> list byte * option string.
Hypothesis sort_Slice_Correct : Sort.Correct sort_Slice.

(** The record that the loop appends for a key. *)
Lemma transform_keys_inl environ app regions createdAt minN maxN keys :
  forall acc es,
  transform_keys base64util_DecodeString environ keys app regions createdAt
    minN maxN acc = inl es ->
  es = acc ++ map (fun k => stored_record
                              (base64util_DecodeString (ExposureKey.Key k)).1
                              k app regions createdAt) keys
  /\ Forall (fun k => exists e,
               TransformExposureKey base64util_DecodeString environ k app
                 regions createdAt minN maxN = inl e) keys.
Proof.
  induction keys as [|k keys IH]; intros acc es; simpl.
  - intros [= <-]. by rewrite app_nil_r.
  - destruct (TransformExposureKey _ _ k _ _ _ _ _) as [e|err] eqn:Hk; [|done].
    intros H. apply IH in H as [-> HF].
    apply TransformExposureKey_inl in Hk as Hk'. destruct Hk' as [-> _].
    rewrite <- app_assoc. split; [done|]. constructor; eauto.
Qed.

Lemma transform_keys_ok environ app regions createdAt minN maxN keys :
  Forall (fun k => exists e,
            TransformExposureKey base64util_DecodeString environ k app
              regions createdAt minN maxN = inl e) keys ->
  forall acc,
  transform_keys base64util_DecodeString environ keys app regions createdAt
    minN maxN acc
  = inl (acc ++ map (fun k => stored_record
                                (base64util_DecodeString (ExposureKey.Key k)).1
                                k app regions createdAt) keys).
Proof.
  induction 1 as [|k keys [e Hk] _ IH]; intros acc; simpl.
  - by rewrite app_nil_r.
  - rewrite Hk, IH, <- app_assoc.
    apply TransformExposureKey_inl in Hk as [-> _]. done.
Qed.

(** The first key that fails ends the loop, with its error wrapped. *)
Lemma transform_keys_first_failure environ app regions createdAt minN maxN
    passed k rest cause :
  Forall (fun k => exists e,
            TransformExposureKey base64util_DecodeString environ k app
              regions createdAt minN maxN = inl e) passed ->
  TransformExposureKey base64util_DecodeString environ k app regions
    createdAt minN maxN = inr cause ->
  forall acc,
  transform_keys base64util_DecodeString environ (passed ++ k :: rest) app
    regions createdAt minN maxN acc = inr (InvalidPublishData cause).
Proof.
  intros Hpassed Hk.
  induction Hpassed as [|k' passed [e Hk'] _ IH]; intros acc; simpl.
  - by rewrite Hk.
  - by rewrite Hk', IH.
Qed.

Lemma transform_keys_failure environ app regions createdAt minN maxN keys k
    cause :
  k ∈ keys ->
  TransformExposureKey base64util_DecodeString environ k app regions
    createdAt minN maxN = inr cause ->
  forall acc, exists cause',
  transform_keys base64util_DecodeString environ keys app regions createdAt
    minN maxN acc = inr (InvalidPublishData cause').
Proof.
  intros Hin Hk. induction keys as [|k' keys IH]; intros acc.
  - by apply elem_of_nil in Hin.
  - simpl.
    destruct (TransformExposureKey _ _ k' _ _ _ _ _) as [e|err] eqn:Hk';
      [|eauto].
    apply elem_of_cons in Hin as [->|Hin]; [congruence|]. by apply IH.
Qed.

(** The shape of every result: [TransformPublish] does not panic; with
    an error there are no records; without one the records are the
    stored records of the submitted keys, in the order of the sort. *)
Lemma TransformPublish_result environ t p batchTime :
  exists recs err,
    TransformPublish sort_Slice strings_ToUpper base64util_DecodeString
      environ t p batchTime = Some (recs, err)
    /\ (err <> None -> recs = [])
    /\ (err = None ->
        Publish.Keys p <> []
        /\ Z.of_nat (length (Publish.Keys p)) <= maxExposureKeys t
        /\ Forall (passes_validation strings_ToUpper base64util_DecodeString
                     environ t p batchTime) (Publish.Keys p)
        /\ recs = sort_Slice _ entity_less
             (map (fun k => stored_record
                               (base64util_DecodeString (ExposureKey.Key k)).1
                               k (Publish.AppPackageName p)
                               (map strings_ToUpper (Publish.Regions p))
                               (TruncateWindow batchTime (truncateWindow t)))
                  (Publish.Keys p))).
Proof.
  destruct sort_Slice_Correct as [Hperm _].
  unfold TransformPublish.
  destruct (Nat.eqb_spec (length (Publish.Keys p)) 0) as [|Hlen];
    [by eexists _, _|].
  destruct (Z.gtb_spec (Z.of_nat (length (Publish.Keys p))) (maxExposureKeys t));
    [by eexists _, _|].
  destruct (transform_keys _ _ _ _ _ _ _ _ _) as [entities|err] eqn:Hloop;
    [|by eexists _, _].
  apply transform_keys_inl in Hloop as [-> Hpass]. simpl in *.
  rewrite upcase_map in *.
  destruct (sort_Slice _ entity_less _) as [|first rest] eqn:Hsort.
  { exfalso. pose proof (Hperm _ entity_less
      (map (fun k => stored_record
                       (base64util_DecodeString (ExposureKey.Key k)).1 k
                       (Publish.AppPackageName p)
                       (map strings_ToUpper (Publish.Regions p))
                       (TruncateWindow batchTime (truncateWindow t)))
           (Publish.Keys p))) as HP.
    rewrite Hsort in HP. apply Permutation_nil_l in HP.
    apply (f_equal length) in HP. rewrite length_map in HP. simpl in HP. lia. }
  destruct (overlap_scan _ _ _ _) as [m [err|]]; [by eexists _, _|].
  eexists _, _. split; [done|]. split; [done|]. intros _.
  split; [by destruct (Publish.Keys p)|].
  split; [lia|]. split; [|done].
  unfold passes_validation, batch_min, batch_max.
  by rewrite upcase_map.
Qed.

(** Keys that pass the validation of a batch give bounded records. *)
Lemma passes_validation_bounded environ t p batchTime k binKey app regions
    createdAt :
  passes_validation strings_ToUpper base64util_DecodeString environ t p
    batchTime k ->
  bounded_record (stored_record binKey k app regions createdAt).
Proof.
  intros [e He]. apply TransformExposureKey_inl in He as (_ & Hc & Hn).
  pose proof (IntervalNumber_bounds batchTime).
  pose proof (IntervalNumber_bounds
                (Time.Add batchTime (Int64.mul (-1) (maxIntervalStartAge t)))).
  unfold batch_min, batch_max in Hn.
  unfold bounded_record, Int32.in_range, Int32.min_int, Int32.max_int.
  simpl. lia.
Qed.

(** A batch of valid keys within the allowed number is accepted when no
    two of its keys overlap misaligned, and rejected with the
    misaligned-overlap error when two do. *)
Lemma TransformPublish_valid_batch environ t p batchTime :
  Publish.Keys p <> [] ->
  Z.of_nat (length (Publish.Keys p)) <= maxExposureKeys t ->
  Forall (passes_validation strings_ToUpper base64util_DecodeString environ
            t p batchTime) (Publish.Keys p) ->
  let entities :=
    sort_Slice _ entity_less
      (map (fun k => stored_record
                       (base64util_DecodeString (ExposureKey.Key k)).1
                       k (Publish.AppPackageName p)
                       (map strings_ToUpper (Publish.Regions p))
                       (TruncateWindow batchTime (truncateWindow t)))
           (Publish.Keys p)) in
  ((forall k1 k2, k1 ∈ Publish.Keys p -> k2 ∈ Publish.Keys p ->
      ~ misaligned k1 k2) ->
   TransformPublish sort_Slice strings_ToUpper base64util_DecodeString
     environ t p batchTime = Some (entities, None))
  /\ (forall k1 k2, k1 ∈ Publish.Keys p -> k2 ∈ Publish.Keys p ->
      misaligned k1 k2 ->
      exists n last next,
        TransformPublish sort_Slice strings_ToUpper base64util_DecodeString
          environ t p batchTime
        = Some ([], Some (MisalignedOverlap n last next))).
Proof.
  intros Hne Hlen Hpass entities.
  destruct sort_Slice_Correct as [Hperm Hsorted].
  assert (Hents : entities ≡ₚ
    map (fun k => stored_record
                    (base64util_DecodeString (ExposureKey.Key k)).1
                    k (Publish.AppPackageName p)
                    (map strings_ToUpper (Publish.Regions p))
                    (TruncateWindow batchTime (truncateWindow t)))
        (Publish.Keys p)) by apply Hperm.
  assert (Hs : Sort.sorted_by entity_less entities)
    by apply Hsorted, entity_less_StrictWeakOrder.
  assert (Hok : Forall bounded_record entities).
  { rewrite Hents, Forall_map. eapply Forall_impl; [exact Hpass|].
    intros k Hk. by eapply passes_validation_bounded. }
  assert (Hin : forall e, e ∈ entities ->
    exists k, k ∈ Publish.Keys p
      /\ Exposure.IntervalNumber e = ExposureKey.IntervalNumber k
      /\ Exposure.IntervalCount e = ExposureKey.IntervalCount k).
  { intros e. rewrite Hents, list_elem_of_fmap.
    intros (k & -> & Hk). by exists k. }
  assert (Hout : forall k, k ∈ Publish.Keys p ->
    exists e, e ∈ entities
      /\ Exposure.IntervalNumber e = ExposureKey.IntervalNumber k
      /\ Exposure.IntervalCount e = ExposureKey.IntervalCount k).
  { intros k Hk. eexists. split; [|split]; [rewrite Hents|..].
    - apply list_elem_of_fmap. exists k. split; [reflexivity | exact Hk].
    - reflexivity.
    - reflexivity. }
  assert (Hmis :
    (forall e1 e2, e1 ∈ entities -> e2 ∈ entities ->
       ~ overlaps_misaligned e1 e2)
    <-> (forall k1 k2, k1 ∈ Publish.Keys p -> k2 ∈ Publish.Keys p ->
           ~ misaligned k1 k2)).
  { unfold overlaps_misaligned, misaligned. split.
    - intros H k1 k2 H1 H2.
      destruct (Hout k1 H1) as (e1 & He1 & <- & <-).
      destruct (Hout k2 H2) as (e2 & He2 & <- & _). by apply H.
    - intros H e1 e2 H1 H2.
      destruct (Hin e1 H1) as (k1 & Hk1 & -> & ->).
      destruct (Hin e2 H2) as (k2 & Hk2 & -> & _). by apply H. }
  assert (Hrun :
    TransformPublish sort_Slice strings_ToUpper base64util_DecodeString
      environ t p batchTime
    = match entities with
      | [] => None
      | first :: _ =>
          match overlap_scan entities ∅ (Exposure.IntervalNumber first)
                  (Int32.add (Exposure.IntervalNumber first)
                             (Exposure.IntervalCount first)) with
          | (_, Some err) => Some ([], Some err)
          | (_, None) => Some (entities, None)
          end
      end).
  { unfold TransformPublish.
    destruct (Nat.eqb_spec (length (Publish.Keys p)) 0) as [H0|_];
      [by destruct (Publish.Keys p)|].
    destruct (Z.gtb_spec (Z.of_nat (length (Publish.Keys p)))
                (maxExposureKeys t)); [lia|].
    rewrite transform_keys_ok; [by rewrite upcase_map|].
    exact Hpass. }
  rewrite Hrun. clear Hrun.
  destruct entities as [|first rest].
  { apply Permutation_nil_l in Hents. by destruct (Publish.Keys p). }
  pose proof (overlap_scan_batch first rest ∅ Hs Hok) as Hscan.
  rewrite Hmis in Hscan.
  destruct (overlap_scan _ _ _ _) as [m [err|]] eqn:Hrun; simpl in Hscan.
  - split.
    + intros H. apply Hscan in H. done.
    + intros _ _ _ _ _.
      pose proof (overlap_scan_error _ _ _ _ err (f_equal snd Hrun))
        as (n & last & next & ->). eauto.
  - split; [done|].
    intros k1 k2 H1 H2 H12. exfalso.
    by apply (proj1 Hscan eq_refl k1 k2).
Qed.
(** C4.  [TransformPublish] is all-or-nothing.  Without keys it returns
    the empty-key-set error and no records; with more keys than
    [maxExposureKeys] it returns the too-many-keys error and no
    records; when a key fails [TransformExposureKey], it returns no
    records and the error of the first key that fails, wrapped as
    invalid publish data; and every result is either an error with no
    records, or no error with as many records as keys: a partial record
    set is never returned (and the function does not panic). *)
Theorem TransformPublish_all_or_nothing environ t p batchTime :
  (Publish.Keys p = [] ->
   TransformPublish sort_Slice strings_ToUpper base64util_DecodeString
     environ t p batchTime = Some ([], Some EmptyKeySet))
  /\ (Publish.Keys p <> [] ->
      Z.of_nat (length (Publish.Keys p)) > maxExposureKeys t ->
      TransformPublish sort_Slice strings_ToUpper base64util_DecodeString
        environ t p batchTime
      = Some ([], Some (TooManyKeys (length (Publish.Keys p))
                                    (maxExposureKeys t))))
  /\ (forall passed k rest cause,
      Publish.Keys p = passed ++ k :: rest ->
      Z.of_nat (length (Publish.Keys p)) <= maxExposureKeys t ->
      Forall (passes_validation strings_ToUpper base64util_DecodeString
                environ t p batchTime) passed ->
      TransformExposureKey base64util_DecodeString environ k
        (Publish.AppPackageName p)
        (upcase strings_ToUpper (Publish.Regions p))
        (TruncateWindow batchTime (truncateWindow t))
        (batch_min t batchTime) (batch_max batchTime) = inr cause ->
      TransformPublish sort_Slice strings_ToUpper base64util_DecodeString
        environ t p batchTime
      = Some ([], Some (InvalidPublishData cause)))
  /\ (forall k,
      k ∈ Publish.Keys p ->
      ~ passes_validation strings_ToUpper base64util_DecodeString environ
          t p batchTime k ->
      exists err,
        TransformPublish sort_Slice strings_ToUpper base64util_DecodeString
          environ t p batchTime = Some ([], Some err))
  /\ (exists recs err,
      TransformPublish sort_Slice strings_ToUpper base64util_DecodeString
        environ t p batchTime = Some (recs, err)
      /\ (err <> None -> recs = [])
      /\ (err = None -> length recs = length (Publish.Keys p))).
Proof.
  repeat split.
  - intros H. unfold TransformPublish. by rewrite H.
  - intros Hne Hgt. unfold TransformPublish.
    destruct (Nat.eqb_spec (length (Publish.Keys p)) 0) as [H0|_];
      [by destruct (Publish.Keys p)|].
    destruct (Z.gtb_spec (Z.of_nat (length (Publish.Keys p)))
                (maxExposureKeys t)); [done | lia].
  - intros passed k rest cause Hkeys Hlen Hpassed Hk.
    unfold TransformPublish.
    destruct (Nat.eqb_spec (length (Publish.Keys p)) 0) as [H0|_].
    { rewrite Hkeys, length_app in H0. simpl in H0. lia. }
    destruct (Z.gtb_spec (Z.of_nat (length (Publish.Keys p)))
                (maxExposureKeys t)); [lia|].
    rewrite Hkeys.
    by rewrite (transform_keys_first_failure _ _ _ _ _ _ passed k rest cause).
  - intros k Hin Hfail.
    destruct (TransformPublish_result environ t p batchTime)
      as (recs & [err|] & Heq & Herr & Hok).
    + exists err. by rewrite Heq, Herr.
    + destruct (Hok eq_refl) as (_ & _ & Hpass & _).
      rewrite Forall_forall in Hpass. by destruct Hfail; apply Hpass.
  - destruct (TransformPublish_result environ t p batchTime)
      as (recs & err & Heq & Herr & Hok).
    exists recs, err. split; [done|]. split; [done|].
    intros Hnone. destruct (Hok Hnone) as (_ & _ & _ & ->).
    destruct sort_Slice_Correct as [Hperm _].
    by rewrite Hperm, length_map.
Qed.

(** C7.  When [TransformPublish] succeeds, its records are the stored
    records of the submitted keys, one for each key: as many records as
    keys, and in every record [CreatedAt] is the truncated batch time,
    [Regions] the upper-cased regions of the request, [AppPackageName]
    that of the request, and [LocalProvenance] true. *)
Theorem TransformPublish_records environ t p batchTime recs :
  TransformPublish sort_Slice strings_ToUpper base64util_DecodeString
    environ t p batchTime = Some (recs, None) ->
  recs ≡ₚ map (fun k => stored_record
                          (base64util_DecodeString (ExposureKey.Key k)).1 k
                          (Publish.AppPackageName p)
                          (map strings_ToUpper (Publish.Regions p))
                          (TruncateWindow batchTime (truncateWindow t)))
              (Publish.Keys p)
  /\ length recs = length (Publish.Keys p)
  /\ Forall (fun e =>
               Exposure.CreatedAt e
               = TruncateWindow batchTime (truncateWindow t)
               /\ Exposure.Regions e
                  = map strings_ToUpper (Publish.Regions p)
               /\ Exposure.AppPackageName e = Publish.AppPackageName p
               /\ Exposure.LocalProvenance e = true) recs.
Proof.
  intros Hrun.
  destruct (TransformPublish_result environ t p batchTime)
    as (recs' & err & Heq & _ & Hok).
  rewrite Hrun in Heq. injection Heq as <- <-.
  destruct (Hok eq_refl) as (_ & _ & _ & Hrecs).
  destruct sort_Slice_Correct as [Hperm _].
  assert (HP : recs ≡ₚ
    map (fun k => stored_record
                    (base64util_DecodeString (ExposureKey.Key k)).1 k
                    (Publish.AppPackageName p)
                    (map strings_ToUpper (Publish.Regions p))
                    (TruncateWindow batchTime (truncateWindow t)))
        (Publish.Keys p)) by (rewrite Hrecs; apply Hperm).
  split; [exact HP|]. split; [by rewrite HP, length_map|].
  rewrite HP, Forall_map. by apply Forall_true.
Qed.

(** C2.  In a batch of keys that all pass per-key validation (not
    empty, and within [maxExposureKeys]): if no key starts strictly
    inside the coverage of another, the batch is accepted, which covers
    keys with identical [intervalNumber] and a key that starts at or
    after the end of the coverage of the previous one; if for two keys
    [X < Y < X + countX], the whole batch is rejected with the
    misaligned-overlap error.  For a batch of two keys: the same start
    is accepted whatever the counts; a start at or after the end of the
    other key is accepted; a start strictly inside the other key is
    rejected, and the error names the start, the start of the other key
    and the end of its coverage. *)
Theorem TransformPublish_overlap environ t p batchTime :
  Publish.Keys p <> [] ->
  Z.of_nat (length (Publish.Keys p)) <= maxExposureKeys t ->
  Forall (passes_validation strings_ToUpper base64util_DecodeString environ
            t p batchTime) (Publish.Keys p) ->
  ((forall k1 k2, k1 ∈ Publish.Keys p -> k2 ∈ Publish.Keys p ->
      ~ misaligned k1 k2) ->
   exists recs,
     TransformPublish sort_Slice strings_ToUpper base64util_DecodeString
       environ t p batchTime = Some (recs, None)
     /\ length recs = length (Publish.Keys p))
  /\ (forall k1 k2, k1 ∈ Publish.Keys p -> k2 ∈ Publish.Keys p ->
      misaligned k1 k2 ->
      exists n last next,
        TransformPublish sort_Slice strings_ToUpper base64util_DecodeString
          environ t p batchTime
        = Some ([], Some (MisalignedOverlap n last next)))
  /\ (forall k1 k2, Publish.Keys p ≡ₚ [k1; k2] ->
      (ExposureKey.IntervalNumber k1 = ExposureKey.IntervalNumber k2 ->
       exists recs,
         TransformPublish sort_Slice strings_ToUpper base64util_DecodeString
           environ t p batchTime = Some (recs, None)
         /\ length recs = 2%nat)
      /\ (ExposureKey.IntervalNumber k1 + ExposureKey.IntervalCount k1
          <= ExposureKey.IntervalNumber k2 ->
          exists recs,
            TransformPublish sort_Slice strings_ToUpper
              base64util_DecodeString environ t p batchTime
            = Some (recs, None)
            /\ length recs = 2%nat)
      /\ (misaligned k1 k2 ->
          TransformPublish sort_Slice strings_ToUpper
            base64util_DecodeString environ t p batchTime
          = Some ([], Some (MisalignedOverlap
                              (ExposureKey.IntervalNumber k2)
                              (ExposureKey.IntervalNumber k1)
                              (ExposureKey.IntervalNumber k1
                               + ExposureKey.IntervalCount k1))))).
Proof.
  intros Hne Hlen Hpass.
  destruct (TransformPublish_valid_batch environ t p batchTime Hne Hlen Hpass)
    as [Haccept Hreject].
  destruct sort_Slice_Correct as [Hperm Hsorted].
  assert (Hgeneral :
    (forall k1 k2, k1 ∈ Publish.Keys p -> k2 ∈ Publish.Keys p ->
       ~ misaligned k1 k2) ->
    exists recs,
      TransformPublish sort_Slice strings_ToUpper base64util_DecodeString
        environ t p batchTime = Some (recs, None)
      /\ length recs = length (Publish.Keys p)).
  { intros H. eexists. split; [by apply Haccept|].
    by rewrite Hperm, length_map. }
  split; [exact Hgeneral|]. split; [exact Hreject|].
  intros k1 k2 Hkeys.
  assert (Hcount : forall k, k ∈ Publish.Keys p ->
    1 <= ExposureKey.IntervalCount k).
  { intros k Hk. rewrite Forall_forall in Hpass.
    destruct (Hpass k Hk) as [e He].
    apply TransformExposureKey_inl in He. lia. }
  assert (Hk1 : k1 ∈ Publish.Keys p) by (rewrite Hkeys; left).
  assert (Hk2 : k2 ∈ Publish.Keys p) by (rewrite Hkeys; right; left).
  pose proof (Hcount k1 Hk1) as Hc1. pose proof (Hcount k2 Hk2) as Hc2.
  assert (Hlen2 : length (Publish.Keys p) = 2%nat) by (by rewrite Hkeys).
  split; [|split].
  - intros Hsame. rewrite <- Hlen2. apply Hgeneral.
    intros a b. rewrite !Hkeys, !elem_of_cons, !elem_of_nil.
    unfold misaligned. intros [->|[->|[]]] [->|[->|[]]]; lia.
  - intros Hafter. rewrite <- Hlen2. apply Hgeneral.
    intros a b. rewrite !Hkeys, !elem_of_cons, !elem_of_nil.
    unfold misaligned. intros [->|[->|[]]] [->|[->|[]]]; lia.
  - intros [Hlt Hin].
    (* the two records, in the order of the sort *)
    pose (record := fun k => stored_record
                      (base64util_DecodeString (ExposureKey.Key k)).1 k
                      (Publish.AppPackageName p)
                      (map strings_ToUpper (Publish.Regions p))
                      (TruncateWindow batchTime (truncateWindow t))).
    assert (Hents : sort_Slice _ entity_less (map record (Publish.Keys p))
                    = [record k1; record k2]).
    { apply (StronglySorted_unique_strong
               (fun x y => entity_less y x = false)).
      - intros x y Hx Hy. rewrite !entity_less_false.
        rewrite !elem_of_cons, elem_of_nil in Hy.
        rewrite Hperm, Hkeys in Hx. simpl in Hx.
        rewrite !elem_of_cons, elem_of_nil in Hx.
        destruct Hx as [->|[->|[]]], Hy as [->|[->|[]]]; simpl; try done; lia.
      - apply Hsorted, entity_less_StrictWeakOrder.
      - repeat constructor. apply entity_less_false. simpl. lia.
      - by rewrite Hperm, Hkeys. }
    destruct (Hreject k1 k2 Hk1 Hk2 (conj Hlt Hin)) as (n & l & nx & Hrun).
    rewrite Hrun. revert Hrun. unfold TransformPublish.
    destruct (Nat.eqb_spec (length (Publish.Keys p)) 0) as [Hz|_]; [lia|].
    destruct (Z.gtb_spec (Z.of_nat (length (Publish.Keys p)))
                (maxExposureKeys t)); [lia|].
    rewrite transform_keys_ok by exact Hpass.
    rewrite upcase_map. fold record. simpl app. rewrite Hents.
    assert (Hb1 : bounded_record (record k1)).
    { rewrite Forall_forall in Hpass.
      eapply passes_validation_bounded, Hpass, Hk1. }
    destruct Hb1 as [_ Hb1]. simpl in Hb1.
    cbn -[Int32.add]. rewrite Z.eqb_refl, !Int32_add_id by done.
    destruct (Z.eqb_spec (ExposureKey.IntervalNumber k2)
                (ExposureKey.IntervalNumber k1)); [lia|].
    destruct (Z.ltb_spec (ExposureKey.IntervalNumber k2)
                (ExposureKey.IntervalNumber k1 + ExposureKey.IntervalCount k1));
      [|lia].
    by intros [= <- <- <-].
Qed.

(** C10.  The running count of start intervals is never consulted: the
    outcome of the overlap scan is the same whatever the count holds.
    And no cap on keys with the same start is enforced: a batch of keys
    that all pass per-key validation and share one [intervalNumber] is
    accepted, however many they are up to [maxExposureKeys]. *)
Theorem TransformPublish_same_start environ t p batchTime :
  (forall entities startIntervals startIntervals' lastInterval nextInterval,
     (overlap_scan entities startIntervals lastInterval nextInterval).2
     = (overlap_scan entities startIntervals' lastInterval nextInterval).2)
  /\ (Publish.Keys p <> [] ->
      Z.of_nat (length (Publish.Keys p)) <= maxExposureKeys t ->
      Forall (passes_validation strings_ToUpper base64util_DecodeString
                environ t p batchTime) (Publish.Keys p) ->
      (forall k1 k2, k1 ∈ Publish.Keys p -> k2 ∈ Publish.Keys p ->
         ExposureKey.IntervalNumber k1 = ExposureKey.IntervalNumber k2) ->
      exists recs,
        TransformPublish sort_Slice strings_ToUpper base64util_DecodeString
          environ t p batchTime = Some (recs, None)
        /\ length recs = length (Publish.Keys p)).
Proof.
  split.
  - intros *. apply overlap_scan_count_irrelevant.
  - intros Hne Hlen Hpass Hsame.
    destruct (TransformPublish_valid_batch environ t p batchTime Hne Hlen
                Hpass) as [Haccept _].
    eexists. split.
    + apply Haccept. intros k1 k2 H1 H2 [Hlt _].
      specialize (Hsame k1 k2 H1 H2). lia.
    + destruct sort_Slice_Correct as [Hperm _].
      by rewrite Hperm, length_map.
Qed.

(** C9.  [NewTransformer] returns an error exactly when
    [maxExposureKeys] is negative or above 21.  With [maxExposureKeys]
    zero it succeeds, and the transformer it returns rejects every
    request that has a key with the too-many-keys error. *)
Theorem NewTransformer_bounds maxKeys maxAge window :
  ((exists err, NewTransformer maxKeys maxAge window = inr err)
   <-> maxKeys < 0 \/ maxKeys > 21)
  /\ NewTransformer 0 maxAge window
     = inl {| maxExposureKeys := 0; maxIntervalStartAge := maxAge;
              truncateWindow := window |}
  /\ (forall environ p batchTime,
      Publish.Keys p <> [] ->
      TransformPublish sort_Slice strings_ToUpper base64util_DecodeString
        environ
        {| maxExposureKeys := 0; maxIntervalStartAge := maxAge;
           truncateWindow := window |} p batchTime
      = Some ([], Some (TooManyKeys (length (Publish.Keys p)) 0))).
Proof.
  split; [|split].
  - unfold NewTransformer, maxKeysPerPublish.
    destruct (Z.ltb_spec maxKeys 0), (Z.gtb_spec maxKeys 21); simpl;
      split; try (intros [err Herr]; discriminate); eauto; lia.
  - reflexivity.
  - intros environ p batchTime Hne. unfold TransformPublish. simpl.
    destruct (Publish.Keys p) as [|k keys]; [done|]. simpl.
    reflexivity.
Qed.

End Batch.

(** ** The theorems on a concrete batch

    Batch time 2021-06-01T00:00:00Z: the window of start intervals is
    [2702160, 2704176). *)

Lemma TransformPublish_all_or_nothing_witness :
  TransformPublish (@Sort.insertionSort) Sample.ToUpper Sample.DecodeString ∅
    Sample.transformer
    (Sample.publish [Sample.key Sample.keyA 2703000 144 3;
                     Sample.key Sample.keyB 2703144 144 9;
                     Sample.key Sample.keyB 2703288 144 3] ["uy"])
    Sample.batchTime
  = Some ([], Some (InvalidPublishData (InvalidTransmissionRisk 9))).
Proof.
  pose proof (TransformPublish_all_or_nothing (@Sort.insertionSort)
                Sample.ToUpper Sample.DecodeString insertionSort_Correct ∅
                Sample.transformer
                (Sample.publish [Sample.key Sample.keyA 2703000 144 3;
                                 Sample.key Sample.keyB 2703144 144 9;
                                 Sample.key Sample.keyB 2703288 144 3] ["uy"])
                Sample.batchTime) as (_ & _ & H & _).
  apply (H [Sample.key Sample.keyA 2703000 144 3]
           (Sample.key Sample.keyB 2703144 144 9)
           [Sample.key Sample.keyB 2703288 144 3]).
  - reflexivity.
  - vm_compute. discriminate.
  - constructor; [|constructor]. eexists. vm_compute. reflexivity.
  - vm_compute. reflexivity.
Defined.

Lemma TransformPublish_records_witness :
  exists recs,
    TransformPublish (@Sort.insertionSort) Sample.ToUpper Sample.DecodeString
      ∅ Sample.transformer
      (Sample.publish [Sample.key Sample.keyB 2703144 144 3;
                       Sample.key Sample.keyA 2703000 144 3] ["uy"; "Br"])
      Sample.batchTime = Some (recs, None)
    /\ length recs = 2%nat
    /\ Forall (fun e =>
                 Exposure.CreatedAt e = Sample.batchTime
                 /\ Exposure.Regions e = ["UY"; "BR"]%string
                 /\ Exposure.AppPackageName e
                    = "uy.gub.salud.plancovid19uy"%string
                 /\ Exposure.LocalProvenance e = true) recs.
Proof.
  assert (Hrun : { recs |
    TransformPublish (@Sort.insertionSort) Sample.ToUpper Sample.DecodeString
      ∅ Sample.transformer
      (Sample.publish [Sample.key Sample.keyB 2703144 144 3;
                       Sample.key Sample.keyA 2703000 144 3] ["uy"; "Br"])
      Sample.batchTime = Some (recs, None) })
    by (eexists; vm_compute; reflexivity).
  destruct Hrun as [recs Hrun]. exists recs. split; [exact Hrun|].
  exact (proj2 (TransformPublish_records (@Sort.insertionSort) Sample.ToUpper
                  Sample.DecodeString insertionSort_Correct ∅
                  Sample.transformer _ Sample.batchTime recs Hrun)).
Defined.

Lemma TransformPublish_overlap_witness :
  (exists recs,
     TransformPublish (@Sort.insertionSort) Sample.ToUpper Sample.DecodeString
       ∅ Sample.transformer
       (Sample.publish [Sample.key Sample.keyB 2703000 144 3;
                        Sample.key Sample.keyA 2703000 72 3] ["uy"])
       Sample.batchTime = Some (recs, None)
     /\ length recs = 2%nat)
  /\ TransformPublish (@Sort.insertionSort) Sample.ToUpper Sample.DecodeString
       ∅ Sample.transformer
       (Sample.publish [Sample.key Sample.keyB 2703100 10 3;
                        Sample.key Sample.keyA 2703000 144 3] ["uy"])
       Sample.batchTime
     = Some ([], Some (MisalignedOverlap 2703100 2703000 2703144)).
Proof.
  split.
  - pose proof (TransformPublish_overlap (@Sort.insertionSort) Sample.ToUpper
                  Sample.DecodeString insertionSort_Correct ∅
                  Sample.transformer
                  (Sample.publish [Sample.key Sample.keyB 2703000 144 3;
                                   Sample.key Sample.keyA 2703000 72 3] ["uy"])
                  Sample.batchTime) as H.
    destruct H as (_ & _ & H).
    + discriminate.
    + vm_compute. discriminate.
    + repeat constructor; eexists; vm_compute; reflexivity.
    + destruct (H (Sample.key Sample.keyB 2703000 144 3)
                  (Sample.key Sample.keyA 2703000 72 3)) as (Hsame & _ & _);
        [reflexivity|].
      apply Hsame. reflexivity.
  - pose proof (TransformPublish_overlap (@Sort.insertionSort) Sample.ToUpper
                  Sample.DecodeString insertionSort_Correct ∅
                  Sample.transformer
                  (Sample.publish [Sample.key Sample.keyB 2703100 10 3;
                                   Sample.key Sample.keyA 2703000 144 3] ["uy"])
                  Sample.batchTime) as H.
    destruct H as (_ & _ & H).
    + discriminate.
    + vm_compute. discriminate.
    + repeat constructor; eexists; vm_compute; reflexivity.
    + destruct (H (Sample.key Sample.keyA 2703000 144 3)
                  (Sample.key Sample.keyB 2703100 10 3)) as (_ & _ & Hmis);
        [apply perm_swap|].
      apply Hmis. split; vm_compute; reflexivity.
Defined.

Lemma TransformPublish_same_start_witness :
  exists recs,
    TransformPublish (@Sort.insertionSort) Sample.ToUpper Sample.DecodeString
      ∅ Sample.transformer
      (Sample.publish [Sample.key Sample.keyB 2703000 144 3;
                       Sample.key Sample.keyA 2703000 72 3;
                       Sample.key Sample.keyA 2703000 144 0] ["uy"])
      Sample.batchTime = Some (recs, None)
    /\ length recs = 3%nat.
Proof.
  refine (proj2
    (TransformPublish_same_start (@Sort.insertionSort) Sample.ToUpper
       Sample.DecodeString insertionSort_Correct ∅ Sample.transformer
       (Sample.publish [Sample.key Sample.keyB 2703000 144 3;
                        Sample.key Sample.keyA 2703000 72 3;
                        Sample.key Sample.keyA 2703000 144 0] ["uy"])
       Sample.batchTime) _ _ _ _).
  - discriminate.
  - vm_compute. discriminate.
  - repeat constructor; eexists; vm_compute; reflexivity.
  - intros k1 k2 H1 H2.
    apply list_elem_of_In in H1, H2. simpl in H1, H2.
    destruct H1 as [<-|[<-|[<-|[]]]], H2 as [<-|[<-|[<-|[]]]]; reflexivity.
Defined.

Lemma NewTransformer_bounds_witness :
  TransformPublish (@Sort.insertionSort) Sample.ToUpper Sample.DecodeString ∅
    {| maxExposureKeys := 0; maxIntervalStartAge := 14 * 24 * Time.Hour;
       truncateWindow := Time.Hour |}
    (Sample.publish [Sample.key Sample.keyA 2703000 144 3] ["uy"])
    Sample.batchTime
  = Some ([], Some (TooManyKeys 1 0)).
Proof.
  refine (proj2 (proj2
    (NewTransformer_bounds (@Sort.insertionSort) Sample.ToUpper
       Sample.DecodeString 0 (14 * 24 * Time.Hour) Time.Hour)) ∅
    (Sample.publish [Sample.key Sample.keyA 2703000 144 3] ["uy"])
    Sample.batchTime _).
  discriminate.
Defined.



(** * Further properties of the package

    ** The interval clock *)

(** X11.  The interval number of every instant lies within 3579139 of zero:
    the Unix seconds are cut to 32 bits before the division.  Adding a
    rolling period of at most 144 intervals to it stays far inside the
    32-bit range. *)
Theorem IntervalNumber_range (t : Time.Time) (ic : Z) :
  -3579139 <= IntervalNumber t <= 3579139
  /\ (0 <= ic <= MaxIntervalCount ->
      Int32.add (IntervalNumber t) ic = IntervalNumber t + ic).
Proof.
  pose proof (IntervalNumber_bounds t) as H. split; [exact H|].
  unfold MaxIntervalCount. intros Hic. apply Int32_add_id.
  unfold Int32.in_range, Int32.min_int, Int32.max_int. lia.
Qed.

Lemma Unix_mono (t1 t2 : Time.Time) : t1 <= t2 -> Time.Unix t1 <= Time.Unix t2.
Proof.
  intros H. unfold Time.Unix, Time.Second. apply Z.div_le_mono; lia.
Qed.

Lemma Unix_Add_seconds (t : Time.Time) (s : Z) :
  Time.Unix (Time.Add t (s * Time.Second)) = Time.Unix t + s.
Proof.
  unfold Time.Unix, Time.Add, Time.Second. rewrite Z.div_add by lia. done.
Qed.

(** X12.  While the Unix seconds fit in 32 bits, a later instant never has a
    smaller interval number; and from the epoch on, ten minutes later
    the interval number is one more. *)
Theorem IntervalNumber_monotone (t1 t2 : Time.Time) :
  Int32.in_range (Time.Unix t1) ->
  Int32.in_range (Time.Unix t2) ->
  t1 <= t2 ->
  IntervalNumber t1 <= IntervalNumber t2
  /\ (0 <= Time.Unix t1 ->
      Int32.in_range (Time.Unix t1 + 600) ->
      IntervalNumber (Time.Add t1 intervalLength) = IntervalNumber t1 + 1).
Proof.
  intros H1 H2 Hle. split.
  - rewrite !IntervalNumber_quot, !Int32_wrap_id by done.
    apply Z.quot_le_mono; [lia|]. by apply Unix_mono.
  - intros Hpos Hnext.
    change intervalLength with (600 * Time.Second).
    rewrite !IntervalNumber_quot, Unix_Add_seconds, !Int32_wrap_id by done.
    rewrite !Z.quot_div_nonneg by lia.
    replace (Time.Unix t1 + 600) with (Time.Unix t1 + 1 * 600) by lia.
    by rewrite Z.div_add by lia.
Qed.

Lemma IntervalNumber_monotone_witness :
  IntervalNumber Sample.batchTime
  <= IntervalNumber (Time.Add Sample.batchTime Time.Hour)
  /\ IntervalNumber (Time.Add Sample.batchTime intervalLength)
     = IntervalNumber Sample.batchTime + 1.
Proof.
  pose proof (IntervalNumber_monotone Sample.batchTime
                (Time.Add Sample.batchTime Time.Hour)) as H.
  destruct H as [Hle Hstep].
  - vm_compute. split; discriminate.
  - vm_compute. split; discriminate.
  - vm_compute. discriminate.
  - split; [exact Hle|]. apply Hstep.
    + vm_compute. discriminate.
    + vm_compute. split; discriminate.
Defined.

(** X13.  For a positive window, [TruncateWindow] returns the last instant at
    or before [t] that is a whole number of windows after the zero time:
    it never moves a time forward, moves it back by less than a window,
    and leaves a truncated time as it is.  A window that is not positive
    leaves every time as it is. *)
Theorem TruncateWindow_floor (t : Time.Time) (d : Time.Duration) :
  (0 < d ->
   TruncateWindow t d <= t < TruncateWindow t d + d
   /\ (TruncateWindow t d + Time.unixToInternal * Time.Second) mod d = 0
   /\ TruncateWindow (TruncateWindow t d) d = TruncateWindow t d)
  /\ (d <= 0 -> TruncateWindow t d = t).
Proof.
  unfold TruncateWindow, Time.Truncate. split.
  - intros Hd. destruct (Z.leb_spec d 0) as [|_]; [lia|].
    set (a := Time.unixToInternal * Time.Second).
    pose proof (Z.mod_pos_bound (t + a) d Hd) as Hr.
    assert (Hmul : (t - (t + a) mod d + a) mod d = 0).
    { replace (t - (t + a) mod d + a) with (t + a - (t + a) mod d) by lia.
      rewrite Zminus_mod, Z.mod_mod, Z.sub_diag by lia. by apply Z.mod_0_l; lia. }
    split; [lia|]. split; [exact Hmul|]. rewrite Hmul. lia.
  - intros Hd. destruct (Z.leb_spec d 0); [done | lia].
Qed.

Lemma TruncateWindow_floor_witness :
  TruncateWindow (Sample.batchTime + 1234567 * Time.Second) Time.Hour
  <= Sample.batchTime + 1234567 * Time.Second
  /\ TruncateWindow (Sample.batchTime + 1234567 * Time.Second) Time.Hour
     = Sample.batchTime + 342 * Time.Hour.
Proof.
  pose proof (TruncateWindow_floor (Sample.batchTime + 1234567 * Time.Second)
                Time.Hour) as [H _].
  destruct H as [[Hle _] _]; [vm_compute; reflexivity|].
  split; [exact Hle | vm_compute; reflexivity].
Defined.

(** ** The key transformer and the batch validator *)

Section MoreBatch.
Variable sort_Slice : forall A : Type, (A -> A -> bool) -> list A -> list A.
Variable strings_ToUpper : string -> string.
Variable base64util_DecodeString : string -> list byte * option string.
Hypothesis sort_Slice_Correct : Sort.Correct sort_Slice.

(** Everything that a successful [TransformExposureKey] has checked. *)
Lemma TransformExposureKey_inl_checked environ k app regions createdAt
    minN maxN e :
  TransformExposureKey base64util_DecodeString environ k app regions
    createdAt minN maxN = inl e ->
  (base64util_DecodeString (ExposureKey.Key k)).2 = None
  /\ length (base64util_DecodeString (ExposureKey.Key k)).1 = 16%nat
  /\ 0 <= ExposureKey.TransmissionRisk k <= 8
  /\ (skip_key_date_validation environ = false ->
      Int32.add (ExposureKey.IntervalNumber k) (ExposureKey.IntervalCount k)
      <= maxN).
Proof.
  unfold TransformExposureKey, KeyLength, MinTransmissionRisk,
    MaxTransmissionRisk.
  destruct (base64util_DecodeString (ExposureKey.Key k)) as [binKey [err|]];
    [done|].
  destruct (Nat.eqb_spec (length binKey) 16); [|done]. cbn [negb].
  destruct (_ || _); [done|].
  destruct (_ <? _); [done|]. destruct (_ >=? _); [done|].
  destruct (skip_key_date_validation environ); cbn [negb andb].
  - destruct (Z.ltb_spec (ExposureKey.TransmissionRisk k) 0); [done|].
    destruct (Z.gtb_spec (ExposureKey.TransmissionRisk k) 8); [done|].
    intros _. repeat split; try done; lia.
  - destruct (Z.gtb_spec (Int32.add (ExposureKey.IntervalNumber k)
                            (ExposureKey.IntervalCount k)) maxN); [done|].
    destruct (Z.ltb_spec (ExposureKey.TransmissionRisk k) 0); [done|].
    destruct (Z.gtb_spec (ExposureKey.TransmissionRisk k) 8); [done|].
    intros _. repeat split; try done; lia.
Qed.

(** X5.  The bypass of the still-valid check.  It is active exactly when
    [SKIP_KEY_DATE_VALIDATION] is set to one of [1], [t], [T], [true],
    [TRUE], [True]; every other value, and no value, leaves the check
    enforced.  When active it removes the still-valid check and nothing
    else: [TransformExposureKey] then returns an error exactly when the
    key fails to decode, its length is not 16, the count is outside
    [1,144], the start is outside the window, or the risk is outside
    [0,8]. *)
Theorem skip_key_date_validation_bypass environ k app regions createdAt
    minN maxN :
  (skip_key_date_validation environ = true
   <-> exists v, environ !! "SKIP_KEY_DATE_VALIDATION"%string = Some v
         /\ v ∈ ["1"; "t"; "T"; "true"; "TRUE"; "True"]%string)
  /\ (skip_key_date_validation environ = true ->
      (exists err,
         TransformExposureKey base64util_DecodeString environ k app regions
           createdAt minN maxN = inr err)
      <-> (base64util_DecodeString (ExposureKey.Key k)).2 <> None
          \/ length (base64util_DecodeString (ExposureKey.Key k)).1 <> 16%nat
          \/ ~ (1 <= ExposureKey.IntervalCount k <= 144)
          \/ ExposureKey.IntervalNumber k < minN
          \/ ExposureKey.IntervalNumber k >= maxN
          \/ ~ (0 <= ExposureKey.TransmissionRisk k <= 8)).
Proof.
  split.
  - unfold skip_key_date_validation, Os.Getenv, Strconv.ParseBool.
    destruct (environ !! "SKIP_KEY_DATE_VALIDATION"%string) as [v|]; simpl.
    + repeat case_bool_decide; simpl; split; try done.
      * intros _. by exists v.
      * intros (v' & [= <-] & Hv). done.
      * intros (v' & [= <-] & Hv). done.
    + split; [done|]. by intros (v & ? & _).
  - intros Hskip.
    unfold TransformExposureKey, KeyLength, MinIntervalCount, MaxIntervalCount,
      MinTransmissionRisk, MaxTransmissionRisk.
    rewrite Hskip. cbn [negb andb].
    destruct (base64util_DecodeString (ExposureKey.Key k)) as [binKey [err|]];
      cbn [fst snd].
    { split; [intros _; by left | eauto]. }
    destruct (Nat.eqb_spec (length binKey) 16); cbn [negb];
      [|split; [intros _; tauto | eauto]].
    destruct (Z.ltb_spec (ExposureKey.IntervalCount k) 1);
      [split; [intros _; right; right; left; lia | eauto]|].
    destruct (Z.gtb_spec (ExposureKey.IntervalCount k) 144);
      [split; [intros _; right; right; left; lia | eauto]|].
    cbn [orb].
    destruct (Z.ltb_spec (ExposureKey.IntervalNumber k) minN);
      [split; [intros _; do 3 right; left; lia | eauto]|].
    destruct (Z.geb_spec (ExposureKey.IntervalNumber k) maxN);
      [split; [intros _; do 4 right; left; lia | eauto]|].
    destruct (Z.ltb_spec (ExposureKey.TransmissionRisk k) 0);
      [split; [intros _; repeat right; lia | eauto]|].
    destruct (Z.gtb_spec (ExposureKey.TransmissionRisk k) 8);
      [split; [intros _; repeat right; lia | eauto]|].
    cbn [orb]. split; [by intros [err Herr]|].
    intros [Hd|[Hd|[Hd|[Hd|[Hd|Hd]]]]]; try done; lia.
Qed.

(** X1.  What a successful batch guarantees about every returned record: a
    decoded key of 16 bytes, a count in [1,144], a transmission risk in
    [0,8], a start inside the window of the batch, and no federation
    sync; the records come in ascending order of start and, for equal
    starts, of count; and no record starts strictly inside the coverage
    of another one. *)
Theorem TransformPublish_success_invariants environ t p batchTime recs :
  TransformPublish sort_Slice strings_ToUpper base64util_DecodeString
    environ t p batchTime = Some (recs, None) ->
  Forall (fun e =>
            length (Exposure.ExposureKey e) = 16%nat
            /\ 1 <= Exposure.IntervalCount e <= 144
            /\ 0 <= Exposure.TransmissionRisk e <= 8
            /\ batch_min t batchTime <= Exposure.IntervalNumber e
               < batch_max batchTime
            /\ Exposure.FederationSyncID e = 0) recs
  /\ StronglySorted
       (fun a b =>
          Exposure.IntervalNumber a < Exposure.IntervalNumber b
          \/ (Exposure.IntervalNumber a = Exposure.IntervalNumber b
              /\ Exposure.IntervalCount a <= Exposure.IntervalCount b)) recs
  /\ (forall e1 e2, e1 ∈ recs -> e2 ∈ recs ->
        Exposure.IntervalNumber e1 = Exposure.IntervalNumber e2
        \/ Exposure.IntervalNumber e1 + Exposure.IntervalCount e1
           <= Exposure.IntervalNumber e2
        \/ Exposure.IntervalNumber e2 + Exposure.IntervalCount e2
           <= Exposure.IntervalNumber e1).
Proof.
  intros Hrun.
  destruct (TransformPublish_result sort_Slice strings_ToUpper
              base64util_DecodeString sort_Slice_Correct environ t p batchTime)
    as (recs' & err & Heq & _ & Hok).
  rewrite Hrun in Heq. injection Heq as <- <-.
  destruct (Hok eq_refl) as (Hne & Hlen & Hpass & Hrecs).
  destruct sort_Slice_Correct as [Hperm Hsorted].
  assert (HP : recs ≡ₚ
    map (fun k => stored_record
                    (base64util_DecodeString (ExposureKey.Key k)).1 k
                    (Publish.AppPackageName p)
                    (map strings_ToUpper (Publish.Regions p))
                    (TruncateWindow batchTime (truncateWindow t)))
        (Publish.Keys p)) by (rewrite Hrecs; apply Hperm).
  split; [|split].
  - rewrite HP, Forall_map. eapply Forall_impl; [exact Hpass|].
    intros k [e He]. simpl.
    pose proof (TransformExposureKey_inl _ _ _ _ _ _ _ _ _ He) as (_ & Hc & Hn).
    pose proof (TransformExposureKey_inl_checked _ _ _ _ _ _ _ _ He)
      as (_ & Hl & Htr & _).
    done.
  - rewrite Hrecs.
    eapply (Sorted.StronglySorted_ind
              (fun l => StronglySorted _ l));
      [constructor| |apply Hsorted, entity_less_StrictWeakOrder].
    intros a l _ IH Ha. constructor; [exact IH|].
    eapply Forall_impl; [exact Ha|]. intros b Hb. by apply entity_less_false.
  - destruct (TransformPublish_valid_batch sort_Slice strings_ToUpper
                base64util_DecodeString sort_Slice_Correct environ t p
                batchTime Hne Hlen Hpass) as [_ Hreject].
    assert (Hin : forall e, e ∈ recs ->
      exists k, k ∈ Publish.Keys p
        /\ Exposure.IntervalNumber e = ExposureKey.IntervalNumber k
        /\ Exposure.IntervalCount e = ExposureKey.IntervalCount k).
    { intros e. rewrite HP, list_elem_of_fmap.
      intros (k & -> & Hk). by exists k. }
    intros e1 e2 H1 H2.
    destruct (Hin e1 H1) as (k1 & Hk1 & -> & ->).
    destruct (Hin e2 H2) as (k2 & Hk2 & -> & ->).
    assert (H12 : ~ misaligned k1 k2).
    { intros Hmis. destruct (Hreject k1 k2 Hk1 Hk2 Hmis) as (? & ? & ? & Hrej).
      rewrite Hrun in Hrej. discriminate. }
    assert (H21 : ~ misaligned k2 k1).
    { intros Hmis. destruct (Hreject k2 k1 Hk2 Hk1 Hmis) as (? & ? & ? & Hrej).
      rewrite Hrun in Hrej. discriminate. }
    unfold misaligned in *. lia.
Qed.

(** X4.  With the still-valid check enforced, every record of a successful
    batch has ended by the interval of the batch time: its start plus its
    count is at most [IntervalNumber batchTime]. *)
Theorem TransformPublish_success_expired environ t p batchTime recs :
  skip_key_date_validation environ = false ->
  TransformPublish sort_Slice strings_ToUpper base64util_DecodeString
    environ t p batchTime = Some (recs, None) ->
  Forall (fun e =>
            Exposure.IntervalNumber e + Exposure.IntervalCount e
            <= IntervalNumber batchTime) recs.
Proof.
  intros Hskip Hrun.
  destruct (TransformPublish_result sort_Slice strings_ToUpper
              base64util_DecodeString sort_Slice_Correct environ t p batchTime)
    as (recs' & err & Heq & _ & Hok).
  rewrite Hrun in Heq. injection Heq as <- <-.
  destruct (Hok eq_refl) as (_ & _ & Hpass & Hrecs).
  destruct sort_Slice_Correct as [Hperm _].
  rewrite Hrecs, Hperm, Forall_map.
  rewrite Forall_forall in Hpass. apply Forall_forall. intros k Hk.
  pose proof (passes_validation_bounded strings_ToUpper
                base64util_DecodeString environ t p batchTime k [] ""%string
                [] 0 (Hpass k Hk)) as [_ Hb].
  destruct (Hpass k Hk) as [e He].
  apply TransformExposureKey_inl_checked in He as (_ & _ & _ & Hend).
  specialize (Hend Hskip). simpl in *.
  rewrite Int32_add_id in Hend by done. exact Hend.
Qed.

(** X6.  A transformer made by [NewTransformer] never accepts more than 21
    keys, nor an empty request: a successful batch has between 1 and 21
    records. *)
Theorem NewTransformer_ceiling maxKeys maxAge window t environ p batchTime
    recs :
  NewTransformer maxKeys maxAge window = inl t ->
  TransformPublish sort_Slice strings_ToUpper base64util_DecodeString
    environ t p batchTime = Some (recs, None) ->
  (1 <= length recs <= 21)%nat
  /\ Z.of_nat (length recs) <= maxKeys.
Proof.
  unfold NewTransformer, maxKeysPerPublish. intros Hnew Hrun.
  destruct (Z.ltb_spec maxKeys 0); [done|].
  destruct (Z.gtb_spec maxKeys 21); [done|].
  injection Hnew as <-.
  destruct (TransformPublish_result sort_Slice strings_ToUpper
              base64util_DecodeString sort_Slice_Correct environ
              {| maxExposureKeys := maxKeys; maxIntervalStartAge := maxAge;
                 truncateWindow := window |} p batchTime)
    as (recs' & err & Heq & _ & Hok).
  rewrite Hrun in Heq. injection Heq as <- <-.
  destruct (Hok eq_refl) as (Hne & Hlen & _ & Hrecs).
  destruct sort_Slice_Correct as [Hperm _].
  assert (Hl : length recs = length (Publish.Keys p))
    by (by rewrite Hrecs, Hperm, length_map).
  simpl in Hlen. rewrite Hl.
  destruct (Publish.Keys p); [done|]. simpl in *. lia.
Qed.

(** X3.  Whether a batch is accepted does not depend on the order in which
    the keys were submitted: a request with the keys permuted succeeds
    exactly when the original does, and then with the same records up to
    their order. *)
Theorem TransformPublish_order_independent environ t p batchTime
    (keys : list ExposureKey.t) :
  keys ≡ₚ Publish.Keys p ->
  let p' := {| Publish.Keys := keys; Publish.Regions := Publish.Regions p;
               Publish.AppPackageName := Publish.AppPackageName p;
               Publish.Platform := Publish.Platform p;
               Publish.DeviceVerificationPayload :=
                 Publish.DeviceVerificationPayload p;
               Publish.VerificationPayload := Publish.VerificationPayload p;
               Publish.Padding := Publish.Padding p |} in
  forall recs,
    TransformPublish sort_Slice strings_ToUpper base64util_DecodeString
      environ t p batchTime = Some (recs, None) ->
    exists recs',
      TransformPublish sort_Slice strings_ToUpper base64util_DecodeString
        environ t p' batchTime = Some (recs', None)
      /\ recs' ≡ₚ recs.
Proof.
  intros Hkeys p' recs Hrun.
  destruct (TransformPublish_result sort_Slice strings_ToUpper
              base64util_DecodeString sort_Slice_Correct environ t p batchTime)
    as (recs0 & err & Heq & _ & Hok).
  rewrite Hrun in Heq. injection Heq as <- <-.
  destruct (Hok eq_refl) as (Hne & Hlen & Hpass & Hrecs).
  destruct sort_Slice_Correct as [Hperm _].
  assert (Hne' : Publish.Keys p' <> []).
  { simpl. intros ->. apply Permutation_nil_l in Hkeys. done. }
  assert (Hlen' : Z.of_nat (length (Publish.Keys p')) <= maxExposureKeys t)
    by (simpl; by rewrite Hkeys).
  assert (Hpass' : Forall (passes_validation strings_ToUpper
                             base64util_DecodeString environ t p' batchTime)
                     (Publish.Keys p'))
    by (simpl; rewrite Hkeys; exact Hpass).
  destruct (TransformPublish_valid_batch sort_Slice strings_ToUpper
              base64util_DecodeString sort_Slice_Correct environ t p'
              batchTime Hne' Hlen' Hpass') as [Haccept _].
  destruct (TransformPublish_valid_batch sort_Slice strings_ToUpper
              base64util_DecodeString sort_Slice_Correct environ t p
              batchTime Hne Hlen Hpass) as [_ Hreject].
  eexists. split.
  - apply Haccept. simpl. intros k1 k2 H1 H2 Hmis.
    rewrite Hkeys in H1, H2.
    destruct (Hreject k1 k2 H1 H2 Hmis) as (? & ? & ? & Hrej).
    rewrite Hrun in Hrej. discriminate.
  - simpl. rewrite Hrecs, !Hperm. by apply Permutation_map.
Qed.

(** X7.  A window without intervals rejects everything: when the oldest
    accepted interval is not below the interval of the batch time, as
    with a [maxIntervalStartAge] of zero, which [NewTransformer] accepts,
    [TransformPublish] returns an error and no records for every
    request. *)
Theorem TransformPublish_empty_window environ t p batchTime :
  (batch_max batchTime <= batch_min t batchTime ->
   exists err,
     TransformPublish sort_Slice strings_ToUpper base64util_DecodeString
       environ t p batchTime = Some ([], Some err))
  /\ (maxIntervalStartAge t = 0 ->
      batch_min t batchTime = batch_max batchTime).
Proof.
  split.
  - intros Hwin.
    destruct (TransformPublish_result sort_Slice strings_ToUpper
                base64util_DecodeString sort_Slice_Correct environ t p
                batchTime) as (recs & [err|] & Heq & Herr & Hok).
    + exists err. by rewrite Heq, Herr.
    + exfalso. destruct (Hok eq_refl) as (Hne & _ & Hpass & _).
      destruct (Publish.Keys p) as [|k keys]; [done|].
      apply Forall_inv in Hpass as [e He].
      apply TransformExposureKey_inl in He. lia.
  - intros H0. unfold batch_min, batch_max. rewrite H0.
    unfold Int64.mul, Time.Add. f_equal. vm_compute Int64.wrap. lia.
Qed.
End MoreBatch.

(** ** The shape of the nonce *)

Lemma lor_bound (n a b : Z) :
  0 <= n -> 0 <= a < 2 ^ n -> 0 <= b < 2 ^ n -> 0 <= Z.lor a b < 2 ^ n.
Proof.
  intros Hn Ha Hb. split; [apply Z.lor_nonneg; lia|].
  destruct (Z.eq_dec (Z.lor a b) 0) as [->|Hne]; [lia|].
  assert (0 <= Z.lor a b) by (apply Z.lor_nonneg; lia).
  apply Z.log2_lt_pow2; [lia|].
  rewrite Z.log2_lor by lia.
  apply Z.max_lub_lt.
  - destruct (Z.eq_dec a 0) as [->|]; [|apply Z.log2_lt_pow2; lia].
    simpl. destruct (Z.eq_dec n 0) as [->|]; [|lia].
    assert (b = 0) by (simpl in Hb; lia). subst. done.
  - destruct (Z.eq_dec b 0) as [->|]; [|apply Z.log2_lt_pow2; lia].
    simpl. destruct (Z.eq_dec n 0) as [->|]; [|lia].
    assert (a = 0) by (simpl in Ha; lia). subst. done.
Qed.

Lemma sextets (b0 b1 : Z) :
  0 <= b0 < 256 -> 0 <= b1 < 256 ->
  0 <= Z.shiftr b0 2 < 64
  /\ 0 <= Z.lor (Z.shiftl (Z.land b0 3) 4) (Z.shiftr b1 4) < 64
  /\ 0 <= Z.lor (Z.shiftl (Z.land b0 15) 2) (Z.shiftr b1 6) < 64
  /\ 0 <= Z.land b0 63 < 64
  /\ 0 <= Z.shiftl (Z.land b0 15) 2 < 64
  /\ 0 <= Z.shiftl (Z.land b0 3) 4 < 64.
Proof.
  intros H0 H1.
  assert (Hs2 : 0 <= Z.shiftr b0 2 < 64).
  { rewrite Z.shiftr_div_pow2 by lia. change (2 ^ 2) with 4.
    split; [apply Z.div_pos; lia | apply Z.div_lt_upper_bound; lia]. }
  assert (Hs4 : 0 <= Z.shiftr b1 4 < 64).
  { rewrite Z.shiftr_div_pow2 by lia. change (2 ^ 4) with 16.
    split; [apply Z.div_pos; lia | apply Z.div_lt_upper_bound; lia]. }
  assert (Hs6 : 0 <= Z.shiftr b1 6 < 64).
  { rewrite Z.shiftr_div_pow2 by lia. change (2 ^ 6) with 64.
    split; [apply Z.div_pos; lia | apply Z.div_lt_upper_bound; lia]. }
  assert (Hl3 : 0 <= Z.shiftl (Z.land b0 3) 4 < 64).
  { change 3 with (Z.ones 2). rewrite Z.land_ones, Z.shiftl_mul_pow2 by lia.
    pose proof (Z.mod_pos_bound b0 (2 ^ 2)). lia. }
  assert (Hl15 : 0 <= Z.shiftl (Z.land b0 15) 2 < 64).
  { change 15 with (Z.ones 4). rewrite Z.land_ones, Z.shiftl_mul_pow2 by lia.
    pose proof (Z.mod_pos_bound b0 (2 ^ 4)). lia. }
  assert (Hl63 : 0 <= Z.land b0 63 < 64).
  { change 63 with (Z.ones 6). rewrite Z.land_ones by lia.
    apply Z.mod_pos_bound. lia. }
  repeat split; try lia; try (apply (lor_bound 6); lia).
Qed.

Lemma round_length (s : list Z) (kw : Z * Z) :
  length s = 8%nat -> length (Sha256.round s kw) = 8%nat.
Proof.
  intros H. do 9 (destruct s as [|? s]; try discriminate H). reflexivity.
Qed.

Lemma compress_length (h block : list Z) :
  length h = 8%nat -> length (Sha256.compress h block) = 8%nat.
Proof.
  intros H. unfold Sha256.compress. rewrite length_zip_with, H.
  assert (Hr : forall kws s, length s = 8%nat ->
            length (fold_left Sha256.round kws s) = 8%nat).
  { induction kws as [|kw kws IH]; intros s Hs; simpl; [done|].
    apply IH. by apply round_length. }
  rewrite Hr by done. reflexivity.
Qed.

Lemma digest_length (msg : list Z) : length (Sha256.digest msg) = 32%nat.
Proof.
  unfold Sha256.digest.
  assert (Hh : forall blocks h, length h = 8%nat ->
            length (fold_left Sha256.compress blocks h) = 8%nat).
  { induction blocks as [|b blocks IH]; intros h Hh; simpl; [done|].
    apply IH. by apply compress_length. }
  specialize (Hh (Sha256.chunks (length (Sha256.pad msg) / 64) 64
                    (Sha256.pad msg)) Sha256.H0 eq_refl).
  revert Hh. generalize (fold_left Sha256.compress
    (Sha256.chunks (length (Sha256.pad msg) / 64) 64 (Sha256.pad msg))
    Sha256.H0).
  intros h Hh. do 9 (destruct h as [|? h]; try discriminate Hh). reflexivity.
Qed.

Lemma byte_range (z : Z) : 0 <= Sha256.Z_of_byte (Sha256.byte_of_Z z) < 256.
Proof.
  unfold Sha256.Z_of_byte.
  pose proof (Byte.to_N_bounded (Sha256.byte_of_Z z)). lia.
Qed.

Lemma enc_alphabet (v : Z) : 0 <= v < 64 -> In (Base64.enc v) Base64.alphabet.
Proof.
  intros Hv. unfold Base64.enc. apply nth_In.
  change (length Base64.alphabet) with 64%nat. lia.
Qed.

Lemma get_string_of_list_ascii (l : list ascii) (i : nat) :
  String.get i (string_of_list_ascii l) = l !! i.
Proof.
  revert i. induction l as [|c l IH]; intros [|i]; simpl; auto.
Qed.

(** X9.  The nonce always has the shape of the padded base-64 encoding of 32
    bytes: 44 characters, the first 43 from the base-64 alphabet and the
    last one the padding character. *)
Theorem AndroidNonce_shape
    (sort_Slice : forall A : Type, (A -> A -> bool) -> list A -> list A)
    (strings_ToUpper : string -> string) (p : Publish.t) :
  String.length (AndroidNonce sort_Slice strings_ToUpper p) = 44%nat
  /\ String.get 43 (AndroidNonce sort_Slice strings_ToUpper p) = Some "="%char
  /\ forall i c, (i < 43)%nat ->
       String.get i (AndroidNonce sort_Slice strings_ToUpper p) = Some c ->
       In c Base64.alphabet.
Proof.
  unfold AndroidNonce, Base64.EncodeToString, Sha256.Sum256.
  generalize (list_byte_of_string
                (AndroidNonce_cleartext sort_Slice strings_ToUpper p)).
  intros data. rewrite map_map.
  pose proof (digest_length (map Sha256.Z_of_byte data)) as Hd.
  revert Hd. generalize (Sha256.digest (map Sha256.Z_of_byte data)).
  intros d Hd.
  do 33 (destruct d as [|? d]; try discriminate Hd). clear Hd.
  cbn [map Base64.encode].
  split; [reflexivity|]. split; [reflexivity|].
  intros i c Hi. rewrite get_string_of_list_ascii. intros Hc.
  rewrite <- (lookup_take_lt _ 43) in Hc by done.
  revert Hc. cbn [take]. revert i c Hi.
  match goal with
  | |- forall i c, _ -> ?l !! i = Some c -> _ =>
      assert (H : Forall (fun c => In c Base64.alphabet) l);
        [|intros i c _ Hc; by eapply (proj1 (Forall_lookup _ l) H)]
  end.
  repeat (apply Forall_cons; split; [apply enc_alphabet|]); [..|constructor].
  all: match goal with
       | |- 0 <= Z.shiftr (Sha256.Z_of_byte (Sha256.byte_of_Z ?x)) 2 < 64 =>
           apply (sextets _ _ (byte_range x) (byte_range x))
       | |- 0 <= Z.land (Sha256.Z_of_byte (Sha256.byte_of_Z ?x)) 63 < 64 =>
           apply (sextets _ _ (byte_range x) (byte_range x))
       | |- 0 <= Z.shiftl (Z.land (Sha256.Z_of_byte (Sha256.byte_of_Z ?x)) 15) 2 < 64 =>
           apply (sextets _ _ (byte_range x) (byte_range x))
       | |- 0 <= Z.lor (Z.shiftl (Z.land (Sha256.Z_of_byte (Sha256.byte_of_Z ?x)) _) _)
                       (Z.shiftr (Sha256.Z_of_byte (Sha256.byte_of_Z ?y)) _) < 64 =>
           apply (sextets _ _ (byte_range x) (byte_range y))
       end.
Qed.

(** X10.  The cleartext does not escape its separator, so the nonce does not
    determine the request: in a request without keys and regions, moving
    a [|] from the end of the application name to the front of the
    verification payload changes the request and leaves the nonce as it
    is. *)
Theorem AndroidNonce_separator_collision
    (sort_Slice : forall A : Type, (A -> A -> bool) -> list A -> list A)
    (strings_ToUpper : string -> string)
    (app payload platform device padding : string) :
  Sort.Correct sort_Slice ->
  (app ++ "|")%string <> app
  /\ AndroidNonce sort_Slice strings_ToUpper
       {| Publish.Keys := []; Publish.Regions := [];
          Publish.AppPackageName := (app ++ "|")%string;
          Publish.Platform := platform;
          Publish.DeviceVerificationPayload := device;
          Publish.VerificationPayload := payload;
          Publish.Padding := padding |}
     = AndroidNonce sort_Slice strings_ToUpper
         {| Publish.Keys := []; Publish.Regions := [];
            Publish.AppPackageName := app;
            Publish.Platform := platform;
            Publish.DeviceVerificationPayload := device;
            Publish.VerificationPayload := ("|" ++ payload)%string;
            Publish.Padding := padding |}.
Proof.
  intros HC. pose proof HC as [Hperm _]. split.
  - induction app as [|c app IH]; [discriminate|].
    intros [= H]. by apply IH.
  - unfold AndroidNonce.
    rewrite !AndroidNonce_cleartext_canonical.
    unfold canonical_cleartext. cbn [Publish.Keys Publish.Regions map
      Publish.AppPackageName Publish.VerificationPayload].
    pose proof (Hperm _ key_less []) as H1.
    pose proof (Hperm _ String.ltb []) as H2.
    apply Permutation_nil_r in H1, H2. rewrite H1, H2.
    cbn [map String.concat]. by rewrite !append_assoc.
Qed.

(** ** The overlap scan, once more *)

(** X8.  The running count of start intervals is kept correctly: when the scan
    passes, the count of every start interval has grown by the number of
    records that start there. *)
Theorem overlap_scan_counts (es : list Exposure.t) :
  forall (m : gmap Z Z) (last next : Z),
  (overlap_scan es m last next).2 = None ->
  forall s : Z,
    default 0 ((overlap_scan es m last next).1 !! s)
    = default 0 (m !! s)
      + Z.of_nat (length (filter (fun e => Exposure.IntervalNumber e = s) es)).
Proof.
  induction es as [|ex rest IH]; intros m last next Hpass s.
  - simpl. lia.
  - revert Hpass. cbn [overlap_scan].
    assert (Hstep : forall m',
      m' = <[Exposure.IntervalNumber ex :=
               default 0 (m !! Exposure.IntervalNumber ex) + 1]> m ->
      default 0 (m' !! s)
      + Z.of_nat (length (filter (fun e => Exposure.IntervalNumber e = s) rest))
      = default 0 (m !! s)
        + Z.of_nat (length (filter (fun e => Exposure.IntervalNumber e = s)
                              (ex :: rest)))).
    { intros m' ->. rewrite filter_cons.
      destruct (decide (Exposure.IntervalNumber ex = s)) as [->|Hne].
      - rewrite lookup_insert_eq. simpl. lia.
      - by rewrite lookup_insert_ne. }
    destruct (Exposure.IntervalNumber ex =? last).
    + intros Hpass. rewrite (IH _ _ _ Hpass s). by apply Hstep.
    + destruct (Exposure.IntervalNumber ex <? next); [done|].
      intros Hpass. rewrite (IH _ _ _ Hpass s). by apply Hstep.
Qed.

Lemma overlap_scan_counts_witness :
  let es := [stored_record [] (Sample.key Sample.keyA 100 50 0) "" [] 0;
             stored_record [] (Sample.key Sample.keyB 100 60 0) "" [] 0;
             stored_record [] (Sample.key Sample.keyB 160 10 0) "" [] 0] in
  (overlap_scan es ∅ 100 150).1 !! 100 = Some 2
  /\ default 0 ((overlap_scan es ∅ 100 150).1 !! 160) = 1.
Proof.
  intros es. split; [vm_compute; reflexivity|].
  rewrite (overlap_scan_counts es ∅ 100 150); [reflexivity|].
  vm_compute. reflexivity.
Defined.

(** The misaligned-overlap error of the scan names two records of the
    batch: one that starts at the reported [last] and ends at the
    reported [next], and one that starts at the reported interval,
    strictly inside the coverage of the first. *)
Lemma overlap_scan_error_names (all : list Exposure.t) (es : list Exposure.t) :
  forall (m : gmap Z Z) (last next n l nx : Z),
  (forall e, e ∈ es -> e ∈ all) ->
  Forall bounded_record es ->
  Sort.sorted_by entity_less es ->
  (forall e, e ∈ es -> last <= Exposure.IntervalNumber e) ->
  (exists prev, prev ∈ all /\ Exposure.IntervalNumber prev = last
     /\ Exposure.IntervalNumber prev + Exposure.IntervalCount prev = next) ->
  (overlap_scan es m last next).2 = Some (MisalignedOverlap n l nx) ->
  exists e1 e2, e1 ∈ all /\ e2 ∈ all
    /\ Exposure.IntervalNumber e1 = l
    /\ Exposure.IntervalNumber e1 + Exposure.IntervalCount e1 = nx
    /\ Exposure.IntervalNumber e2 = n
    /\ l < n < nx.
Proof.
  unfold Sort.sorted_by.
  induction es as [|ex rest IH]; intros m last next n l nx Hin Hok Hs Hge Hprev;
    [done|].
  apply StronglySorted_inv in Hs as [Hs Hex]. rewrite Forall_forall in Hex.
  apply Forall_cons in Hok as [[Hc Hsum] Hok].
  assert (Hex_in : ex ∈ all) by (apply Hin; left).
  assert (Hrest_in : forall e, e ∈ rest -> e ∈ all)
    by (intros e He; apply Hin; by right).
  cbn [overlap_scan]. rewrite Int32_add_id by done.
  destruct (Z.eqb_spec (Exposure.IntervalNumber ex) last) as [Heq|Hne].
  - apply IH; try done.
    + intros e He. apply Hge. by right.
    + exists ex. by rewrite Heq.
  - destruct (Z.ltb_spec (Exposure.IntervalNumber ex) next) as [Hlt|Hnext].
    + cbn. intros [= <- <- <-].
      destruct Hprev as (prev & Hp & Hpl & Hpn).
      exists prev, ex. repeat split; try done.
      specialize (Hge ex). pose proof (Hge ltac:(left)). lia.
    + apply IH; try done.
      * intros e He. specialize (Hex e He).
        apply entity_less_false in Hex. lia.
      * by exists ex.
Qed.

Section OverlapError.
Variable sort_Slice : forall A : Type, (A -> A -> bool) -> list A -> list A.
Variable strings_ToUpper : string -> string.
Variable base64util_DecodeString : string -> list byte * option string.
Hypothesis sort_Slice_Correct : Sort.Correct sort_Slice.

Lemma transform_keys_inr environ app regions createdAt minN maxN keys :
  forall acc err,
  transform_keys base64util_DecodeString environ keys app regions createdAt
    minN maxN acc = inr err ->
  exists cause, err = InvalidPublishData cause.
Proof.
  induction keys as [|k keys IH]; intros acc err; simpl; [done|].
  destruct (TransformExposureKey _ _ k _ _ _ _ _) as [e|cause].
  - apply IH.
  - intros [= <-]. eauto.
Qed.

(** X2.  The misaligned-overlap error is never a false alarm, and it is only
    reported for a batch whose keys all passed per-key validation: the
    request then has a key that starts at the reported [last] and ends at
    the reported [next], and a key that starts at the reported interval,
    strictly between the two. *)
Theorem TransformPublish_overlap_error environ t p batchTime recs n last next :
  TransformPublish sort_Slice strings_ToUpper base64util_DecodeString
    environ t p batchTime
  = Some (recs, Some (MisalignedOverlap n last next)) ->
  recs = []
  /\ Forall (passes_validation strings_ToUpper base64util_DecodeString environ
               t p batchTime) (Publish.Keys p)
  /\ exists k1 k2,
       k1 ∈ Publish.Keys p /\ k2 ∈ Publish.Keys p
       /\ ExposureKey.IntervalNumber k1 = last
       /\ ExposureKey.IntervalNumber k1 + ExposureKey.IntervalCount k1 = next
       /\ ExposureKey.IntervalNumber k2 = n
       /\ last < n < next.
Proof.
  destruct sort_Slice_Correct as [Hperm Hsorted].
  unfold TransformPublish.
  destruct (length (Publish.Keys p) =? 0)%nat; [done|].
  destruct (_ >? _); [done|].
  destruct (transform_keys _ _ _ _ _ _ _ _ _) as [entities|err] eqn:Hloop.
  2: { apply transform_keys_inr in Hloop as [cause ->]. done. }
  apply transform_keys_inl in Hloop as [-> Hpass]. simpl app.
  rewrite upcase_map in *.
  set (record := fun k => stored_record
                   (base64util_DecodeString (ExposureKey.Key k)).1 k
                   (Publish.AppPackageName p)
                   (map strings_ToUpper (Publish.Regions p))
                   (TruncateWindow batchTime (truncateWindow t))) in *.
  assert (Hpass' : Forall (passes_validation strings_ToUpper
                             base64util_DecodeString environ t p batchTime)
                     (Publish.Keys p)).
  { unfold passes_validation, batch_min, batch_max. by rewrite upcase_map. }
  pose proof (Hperm _ entity_less (map record (Publish.Keys p))) as Hents.
  assert (Hs : Sort.sorted_by entity_less
                 (sort_Slice _ entity_less (map record (Publish.Keys p))))
    by apply Hsorted, entity_less_StrictWeakOrder.
  assert (Hok : Forall bounded_record
                  (sort_Slice _ entity_less (map record (Publish.Keys p)))).
  { rewrite Hents, Forall_map. eapply Forall_impl; [exact Hpass'|].
    intros k Hk. by eapply passes_validation_bounded. }
  revert Hents Hs Hok.
  generalize (sort_Slice _ entity_less (map record (Publish.Keys p))).
  intros [|first rest] Hents Hs Hok; [done|].
  destruct (overlap_scan _ _ _ _) as [m [err|]] eqn:Hscan; [|done].
  intros [= <- ->]. split; [done|]. split; [exact Hpass'|].
  pose proof (Forall_inv Hok) as [Hc Hsum].
  rewrite Int32_add_id in Hscan by done.
  destruct (overlap_scan_error_names (first :: rest) (first :: rest) ∅
              (Exposure.IntervalNumber first)
              (Exposure.IntervalNumber first + Exposure.IntervalCount first)
              n last next) as (e1 & e2 & H1 & H2 & Hl & Hnx & Hn & Hlt);
    try done.
  - intros e [->|He]%elem_of_cons; [lia|].
    apply StronglySorted_inv in Hs as [_ Hf]. rewrite Forall_forall in Hf.
    specialize (Hf e He). apply entity_less_false in Hf. lia.
  - exists first. split; [left | done].
  - by rewrite Hscan.
  - assert (Hin : forall e, e ∈ first :: rest ->
      exists k, k ∈ Publish.Keys p
        /\ Exposure.IntervalNumber e = ExposureKey.IntervalNumber k
        /\ Exposure.IntervalCount e = ExposureKey.IntervalCount k).
    { intros e. rewrite Hents, list_elem_of_fmap.
      intros (k & -> & Hk). by exists k. }
    destruct (Hin e1 H1) as (k1 & Hk1 & Hn1 & Hc1).
    destruct (Hin e2 H2) as (k2 & Hk2 & Hn2 & _).
    exists k1, k2. rewrite <- Hn1, <- Hc1, <- Hn2. done.
Qed.
End OverlapError.

(** ** The further properties on concrete batches *)

Lemma AndroidNonce_separator_collision_witness :
  AndroidNonce (@Sort.insertionSort) Sample.ToUpper
    {| Publish.Keys := []; Publish.Regions := [];
       Publish.AppPackageName := "app|"; Publish.Platform := "android";
       Publish.DeviceVerificationPayload := "";
       Publish.VerificationPayload := "payload"; Publish.Padding := "" |}
  = AndroidNonce (@Sort.insertionSort) Sample.ToUpper
      {| Publish.Keys := []; Publish.Regions := [];
         Publish.AppPackageName := "app"; Publish.Platform := "android";
         Publish.DeviceVerificationPayload := "";
         Publish.VerificationPayload := "|payload"; Publish.Padding := "" |}.
Proof.
  exact (proj2 (AndroidNonce_separator_collision (@Sort.insertionSort)
                  Sample.ToUpper "app" "payload" "android" "" ""
                  insertionSort_Correct)).
Defined.

Lemma TransformPublish_success_invariants_witness :
  exists recs,
    TransformPublish (@Sort.insertionSort) Sample.ToUpper Sample.DecodeString
      ∅ Sample.transformer
      (Sample.publish [Sample.key Sample.keyB 2703144 144 3;
                       Sample.key Sample.keyA 2703000 144 8;
                       Sample.key Sample.keyB 2703000 72 0] ["uy"])
      Sample.batchTime = Some (recs, None)
    /\ map Exposure.IntervalNumber recs = [2703000; 2703000; 2703144]
    /\ map Exposure.IntervalCount recs = [72; 144; 144]
    /\ Forall (fun e => length (Exposure.ExposureKey e) = 16%nat) recs.
Proof.
  assert (Hrun : { recs |
    TransformPublish (@Sort.insertionSort) Sample.ToUpper Sample.DecodeString
      ∅ Sample.transformer
      (Sample.publish [Sample.key Sample.keyB 2703144 144 3;
                       Sample.key Sample.keyA 2703000 144 8;
                       Sample.key Sample.keyB 2703000 72 0] ["uy"])
      Sample.batchTime = Some (recs, None)
    /\ map Exposure.IntervalNumber recs = [2703000; 2703000; 2703144]
    /\ map Exposure.IntervalCount recs = [72; 144; 144] })
    by (eexists; vm_compute; repeat split; reflexivity).
  destruct Hrun as (recs & Hrun & Hn & Hc). exists recs.
  split; [exact Hrun|]. split; [exact Hn|]. split; [exact Hc|].
  pose proof (TransformPublish_success_invariants (@Sort.insertionSort)
                Sample.ToUpper Sample.DecodeString insertionSort_Correct ∅
                Sample.transformer _ Sample.batchTime recs Hrun) as [H _].
  eapply Forall_impl; [exact H|]. intros e He. apply He.
Defined.

Lemma TransformPublish_success_expired_witness :
  exists recs,
    TransformPublish (@Sort.insertionSort) Sample.ToUpper Sample.DecodeString
      ∅ Sample.transformer
      (Sample.publish [Sample.key Sample.keyA 2704032 144 3] ["uy"])
      Sample.batchTime = Some (recs, None)
    /\ Forall (fun e =>
                 Exposure.IntervalNumber e + Exposure.IntervalCount e
                 <= IntervalNumber Sample.batchTime) recs.
Proof.
  assert (Hrun : { recs |
    TransformPublish (@Sort.insertionSort) Sample.ToUpper Sample.DecodeString
      ∅ Sample.transformer
      (Sample.publish [Sample.key Sample.keyA 2704032 144 3] ["uy"])
      Sample.batchTime = Some (recs, None) })
    by (eexists; vm_compute; reflexivity).
  destruct Hrun as (recs & Hrun). exists recs. split; [exact Hrun|].
  apply (TransformPublish_success_expired (@Sort.insertionSort)
           Sample.ToUpper Sample.DecodeString insertionSort_Correct ∅
           Sample.transformer
           (Sample.publish [Sample.key Sample.keyA 2704032 144 3] ["uy"])
           Sample.batchTime recs); [|exact Hrun].
  vm_compute. reflexivity.
Defined.

Lemma NewTransformer_ceiling_witness :
  exists recs,
    TransformPublish (@Sort.insertionSort) Sample.ToUpper Sample.DecodeString
      ∅ Sample.transformer
      (Sample.publish [Sample.key Sample.keyA 2703000 144 3] ["uy"])
      Sample.batchTime = Some (recs, None)
    /\ (1 <= length recs <= 21)%nat.
Proof.
  assert (Hrun : { recs |
    TransformPublish (@Sort.insertionSort) Sample.ToUpper Sample.DecodeString
      ∅ Sample.transformer
      (Sample.publish [Sample.key Sample.keyA 2703000 144 3] ["uy"])
      Sample.batchTime = Some (recs, None) })
    by (eexists; vm_compute; reflexivity).
  destruct Hrun as (recs & Hrun). exists recs. split; [exact Hrun|].
  refine (proj1 (NewTransformer_ceiling (@Sort.insertionSort) Sample.ToUpper
                   Sample.DecodeString insertionSort_Correct 21
                   (14 * 24 * Time.Hour) Time.Hour Sample.transformer ∅ _
                   Sample.batchTime recs _ Hrun)).
  reflexivity.
Defined.

Lemma TransformPublish_order_independent_witness :
  exists recs',
    TransformPublish (@Sort.insertionSort) Sample.ToUpper Sample.DecodeString
      ∅ Sample.transformer
      (Sample.publish [Sample.key Sample.keyA 2703000 144 3;
                       Sample.key Sample.keyB 2703144 144 3] ["uy"])
      Sample.batchTime = Some (recs', None).
Proof.
  assert (Hrun : { recs |
    TransformPublish (@Sort.insertionSort) Sample.ToUpper Sample.DecodeString
      ∅ Sample.transformer
      (Sample.publish [Sample.key Sample.keyB 2703144 144 3;
                       Sample.key Sample.keyA 2703000 144 3] ["uy"])
      Sample.batchTime = Some (recs, None) })
    by (eexists; vm_compute; reflexivity).
  destruct Hrun as (recs & Hrun).
  destruct (TransformPublish_order_independent (@Sort.insertionSort)
              Sample.ToUpper Sample.DecodeString insertionSort_Correct ∅
              Sample.transformer
              (Sample.publish [Sample.key Sample.keyB 2703144 144 3;
                               Sample.key Sample.keyA 2703000 144 3] ["uy"])
              Sample.batchTime
              [Sample.key Sample.keyA 2703000 144 3;
               Sample.key Sample.keyB 2703144 144 3]
              (perm_swap _ _ _) recs Hrun) as (recs' & Hrun' & _).
  exists recs'. exact Hrun'.
Defined.

Lemma TransformPublish_empty_window_witness :
  exists err,
    TransformPublish (@Sort.insertionSort) Sample.ToUpper Sample.DecodeString
      ∅
      {| maxExposureKeys := 21; maxIntervalStartAge := 0;
         truncateWindow := Time.Hour |}
      (Sample.publish [Sample.key Sample.keyA 2704032 144 3] ["uy"])
      Sample.batchTime = Some ([], Some err).
Proof.
  apply (TransformPublish_empty_window (@Sort.insertionSort) Sample.ToUpper
           Sample.DecodeString insertionSort_Correct).
  vm_compute. discriminate.
Defined.

Lemma TransformPublish_overlap_error_witness :
  exists k1 k2,
    k1 ∈ [Sample.key Sample.keyB 2703100 10 3;
          Sample.key Sample.keyA 2703000 144 3]
    /\ k2 ∈ [Sample.key Sample.keyB 2703100 10 3;
             Sample.key Sample.keyA 2703000 144 3]
    /\ ExposureKey.IntervalNumber k1 = 2703000
    /\ ExposureKey.IntervalNumber k1 + ExposureKey.IntervalCount k1 = 2703144
    /\ ExposureKey.IntervalNumber k2 = 2703100
    /\ 2703000 < 2703100 < 2703144.
Proof.
  refine (proj2 (proj2
    (TransformPublish_overlap_error (@Sort.insertionSort) Sample.ToUpper
       Sample.DecodeString insertionSort_Correct ∅ Sample.transformer
       (Sample.publish [Sample.key Sample.keyB 2703100 10 3;
                        Sample.key Sample.keyA 2703000 144 3] ["uy"])
       Sample.batchTime [] 2703100 2703000 2703144 _))).
  vm_compute. reflexivity.
Defined.

(** ** The export-config tool *)

Section MainProperties.
Import ExportConfigTool.
Variable strings_ToUpper : string -> string.
Variable time_Now : Time.Time.
Variable time_Parse_RFC3339 : string -> Time.Time * option string.
Variable Config : Type.
Variable DB : Type.
Variable envconfig_Process : Config * option string.
Variable coredb_NewFromEnv : Config -> DB * option string.
Variable AddSignatureInfo :
  DB -> SignatureInfo -> DB * SignatureInfo * option string.
Variable AddExportConfig :
  DB -> ExportConfig -> DB * ExportConfig * option string.

Lemma eqb_empty (s : string) : String.eqb s "" = true <-> s = ""%string.
Proof. apply String.eqb_eq. Qed.


(** X15.  What is written.  The export config that [main] hands to the
    database carries the bucket, the file name root and the period of the
    flags, the region in upper case, the start time of the flag or the
    current time when the flag is empty, the end time of the flag or the
    zero time when it is empty, and as its only signature info the
    identifier that the database has just assigned: the signature info
    was added first, from the three signing flags, and without error. *)
Theorem main_writes (f : Flags) (ec : ExportConfig) :
  CallAddExportConfig ec
    ∈ (main strings_ToUpper time_Now time_Parse_RFC3339 Config DB
         envconfig_Process coredb_NewFromEnv AddSignatureInfo AddExportConfig
         f).1 ->
  let si := {| SigningKey := signingKey f;
               SigningKeyVersion := signingKeyVersion f;
               SigningKeyID := signingKeyID f; ID := 0 |} in
  let added :=
    AddSignatureInfo (coredb_NewFromEnv envconfig_Process.1).1 si in
  ec = {| ConfigID := 0; BucketName := bucketName f;
          FilenameRoot := filenameRoot f; Period := period f;
          Region := strings_ToUpper (region f);
          From := (if String.eqb (fromTimestamp f) "" then time_Now
                   else (time_Parse_RFC3339 (fromTimestamp f)).1);
          Thru := (if String.eqb (thruTimestamp f) "" then zeroTime
                   else (time_Parse_RFC3339 (thruTimestamp f)).1);
          SignatureInfoIDs := [ID added.1.2] |}
  /\ added.2 = None
  /\ exists before after,
       (main strings_ToUpper time_Now time_Parse_RFC3339 Config DB
          envconfig_Process coredb_NewFromEnv AddSignatureInfo AddExportConfig
          f).1
       = before ++ CallAddSignatureInfo si :: CallAddExportConfig ec :: after
       /\ Forall (fun e => e = Connect \/ e = Printf NoSigningKeyWarning)
            before.
Proof.
  unfold main, write_config.
  destruct (String.eqb (bucketName f) "");
    [simpl; rewrite list_elem_of_singleton; done|].
  destruct (String.eqb (filenameRoot f) "");
    [simpl; rewrite list_elem_of_singleton; done|].
  destruct (String.eqb (region f) "");
    [simpl; rewrite list_elem_of_singleton; done|].
  destruct (String.eqb (fromTimestamp f) "");
    [|destruct (time_Parse_RFC3339 (fromTimestamp f)) as [fromTime [err|]];
      [simpl; rewrite list_elem_of_singleton; done|]];
    (destruct (String.eqb (thruTimestamp f) "");
     [|destruct (time_Parse_RFC3339 (thruTimestamp f)) as [thruTime [err|]];
       [simpl; rewrite list_elem_of_singleton; done|]]);
    (destruct envconfig_Process as [config [err|]];
     [destruct (String.eqb (signingKey f) ""); simpl; intros Hin;
      repeat (apply elem_of_cons in Hin as [Hin|Hin]; [discriminate Hin|]);
      by apply elem_of_nil in Hin|]);
    cbn [fst snd];
    (destruct (coredb_NewFromEnv config) as [db [err|]];
     [destruct (String.eqb (signingKey f) ""); simpl; intros Hin;
      repeat (apply elem_of_cons in Hin as [Hin|Hin]; [discriminate Hin|]);
      by apply elem_of_nil in Hin|]);
    cbn [fst snd];
    (destruct (AddSignatureInfo db _) as [[db' si'] [err|]];
     [destruct (String.eqb (signingKey f) ""); simpl; intros Hin;
      repeat (apply elem_of_cons in Hin as [Hin|Hin]; [discriminate Hin|]);
      by apply elem_of_nil in Hin|]);
    (destruct (AddExportConfig db' _) as [[db'' ec'] [err|]]);
    (destruct (String.eqb (signingKey f) "")); cbn [app fst snd]; intros Hin;
    repeat (apply elem_of_cons in Hin as [Hin|Hin];
            [first [discriminate Hin | injection Hin as ->]|]);
    try (by apply elem_of_nil in Hin);
    (split; [reflexivity|]); (split; [reflexivity|]);
    first [ by eexists [Connect], _; split; [reflexivity|repeat constructor; auto]
          | by eexists [Printf NoSigningKeyWarning; Connect], _;
            split; [reflexivity|repeat constructor; auto] ].
Qed.


End MainProperties.

Lemma main_writes_witness :
  exists ec,
    ExportConfigTool.CallAddExportConfig ec
      ∈ (ExportConfigTool.main Sample.ToUpper ExportConfigTool.sample_now
           ExportConfigTool.sample_Parse unit
           (list ExportConfigTool.SignatureInfo
            * list ExportConfigTool.ExportConfig)
           (tt, None) ExportConfigTool.sample_connect
           ExportConfigTool.sample_AddSignatureInfo
           ExportConfigTool.sample_AddExportConfig
           ExportConfigTool.defaults).1
    /\ ExportConfigTool.Region ec = "UY"%string
    /\ ExportConfigTool.From ec = 1577836800 * Time.Second
    /\ ExportConfigTool.Thru ec = 1609459200 * Time.Second
    /\ ExportConfigTool.SignatureInfoIDs ec = [1].
Proof.
  eexists. split.
  - vm_compute. right. right. left.
  - match goal with
    | |- context [ExportConfigTool.Region ?ec] =>
        pose proof (main_writes Sample.ToUpper ExportConfigTool.sample_now
                      ExportConfigTool.sample_Parse unit
                      (list ExportConfigTool.SignatureInfo
                       * list ExportConfigTool.ExportConfig)
                      (tt, None) ExportConfigTool.sample_connect
                      ExportConfigTool.sample_AddSignatureInfo
                      ExportConfigTool.sample_AddExportConfig
                      ExportConfigTool.defaults ec) as H
    end.
    destruct H as [-> _].
    + vm_compute. right. right. left.
    + vm_compute. repeat split.
Defined.
